(** * sync360: departments and users upload to a remote directory

    A shallow embedding of [src/sync360.py].  The pure part (Kahn's algorithm
    over the rows of [departments.csv]) is embedded as plain functions; the
    part that talks to the directory service is embedded in a state and
    exception monad over a [World] holding the module-level [DEPT_CACHE], the
    replies the service is going to give, the log of HTTP requests issued so
    far and the log of [time.sleep] calls.

    What the embedding leaves out: [print], the reading and validation of
    the CSV files, and the configuration.  Identifiers of the service are
    strings.  The [while True] loop of the listing takes fuel; running out
    of it is the outcome [OutOfFuel], which is neither a result nor an
    exception. *)

From stdpp Require Import gmap strings list fin_maps relations.
From Stdlib Require Import QArith Ascii.

Local Open Scope string_scope.
Local Open Scope Z_scope.
Local Open Scope list_scope.

(** ** Input rows *)

(** A row of [departments.csv] as [csv.DictReader] yields it.  The two
    columns checked by [validate_departments_csv] are read with [r["..."]];
    the others are read with [r.get("...")], which gives [None] when the
    column or the cell is missing. *)
Record DeptRow := {
  external_id : string;
  name : string;
  parent_external_id : option string;
  label : option string;
  description : option string;
}.

Global Instance DeptRow_eq_dec : EqDecision DeptRow.
Proof. solve_decision. Defined.

(** [x or None] for a value that is a string or [None]. *)
Definition or_None (x : option string) : option string :=
  match x with
  | Some "" => None
  | _ => x
  end.

(** [pe = r.get("parent_external_id") or None] *)
Definition pe (r : DeptRow) : option string := or_None (parent_external_id r).

Definition ids (dept_rows : list DeptRow) : list string := external_id <$> dept_rows.

(** ** Python dictionaries that are iterated: values and insertion order *)

Record odict := {
  od_map : gmap string Z;
  od_keys : list string;
}.

Definition od_empty : odict := {| od_map := ∅; od_keys := [] |}.

(** [d[k]] on a [defaultdict(int)] *)
Definition od_getd (d : gmap string Z) (k : string) : Z := default 0 (d !! k).

(** [d[k] = v]: a new key goes to the end, a known key keeps its place. *)
Definition od_set (k : string) (v : Z) (d : odict) : odict :=
  {| od_map := <[k := v]> (od_map d);
     od_keys := match od_map d !! k with
                | Some _ => od_keys d
                | None => od_keys d ++ [k]
                end |}.

(** [d.setdefault(k, v)] *)
Definition od_setdefault (k : string) (v : Z) (d : odict) : odict :=
  match od_map d !! k with
  | Some _ => d
  | None => od_set k v d
  end.

(** [[k for k, v in d.items() if v == 0]] *)
Definition od_zero_keys (d : odict) : list string :=
  filter (λ k, od_map d !! k = Some 0) (od_keys d).

(** ** Hierarchy resolution (lines 157-177 of [build_hierarchy_and_create]) *)

(** [by_ext = {r["external_id"]: r for r in dept_rows}]: a later row
    replaces an earlier one with the same key. *)
Definition by_ext (dept_rows : list DeptRow) : gmap string DeptRow :=
  foldl (λ m r, <[external_id r := r]> m) ∅ dept_rows.

(** The test [pe and pe in by_ext] of the first loop, with the parent it
    accepts. *)
Definition in_set_parent (B : gmap string DeptRow) (r : DeptRow) : option string :=
  match pe r with
  | Some p => if decide (is_Some (B !! p)) then Some p else None
  | None => None
  end.

(** [graph.get(u, [])] *)
Definition children (graph : gmap string (list string)) (u : string) : list string :=
  default [] (graph !! u).

(** Body of the first loop. *)
Definition build_step (B : gmap string DeptRow)
    (st : gmap string (list string) * odict) (r : DeptRow)
    : gmap string (list string) * odict :=
  match in_set_parent B r with
  | Some p =>
      (<[p := children st.1 p ++ [external_id r]]> st.1,
       od_set (external_id r) (od_getd (od_map st.2) (external_id r) + 1) st.2)
  | None => (st.1, od_setdefault (external_id r) 0 st.2)
  end.

Definition build_graph (B : gmap string DeptRow) (dept_rows : list DeptRow)
    : gmap string (list string) * odict :=
  foldl (build_step B) (∅, od_empty) dept_rows.

(** The inner [for v in graph.get(u, [])] loop: decrement, and enqueue at
    zero.  Only the values of [indeg] are read from here on. *)
Fixpoint relax (vs : list string) (indeg : gmap string Z) (q : list string)
    : gmap string Z * list string :=
  match vs with
  | [] => (indeg, q)
  | v :: vs' =>
      let indeg' := <[v := od_getd indeg v - 1]> indeg in
      relax vs' indeg' (if decide (od_getd indeg' v = 0) then q ++ [v] else q)
  end.

(** The [while q] loop.  Every round moves one key to [order], so the
    number of rounds is bounded; [fuel] counts them. *)
Fixpoint kahn_loop (fuel : nat) (graph : gmap string (list string))
    (indeg : gmap string Z) (q order : list string) : option (list string) :=
  match fuel with
  | O => None
  | S fuel' =>
      match q with
      | [] => Some order
      | u :: q' =>
          let '(indeg', q'') := relax (children graph u) indeg q' in
          kahn_loop fuel' graph indeg' q'' (order ++ [u])
      end
  end.

(** Lines 157-177: the order in which departments are going to be created. *)
Definition kahn_order (dept_rows : list DeptRow) : option (list string) :=
  let '(graph, indeg) := build_graph (by_ext dept_rows) dept_rows in
  kahn_loop (S (length dept_rows)) graph (od_map indeg) (od_zero_keys indeg) [].

(** The in-degree the first loop gives to a key. *)
Definition initial_indeg (dept_rows : list DeptRow) (k : string) : option Z :=
  od_map (build_graph (by_ext dept_rows) dept_rows).2 !! k.

(** ** The directory service as the program sees it *)

(** A department object of the service ([dict] decoded from JSON), through
    the three keys the program reads.  [None] stands for a missing key.
    Such objects are never the empty [dict]. *)
Module Dept.
Record t := {
  id : option string;
  externalId : option string;
  name : option string;
}.
End Dept.

(** A decoded JSON object of a response body, through the keys the program
    reads from it. *)
Module Json.
Record t := {
  id : option string;
  externalId : option string;
  name : option string;
  departments : option (list Dept.t);
  pages : option Z;
}.
End Json.

(** [requests.Response]: the status line and the body ([None]: the body is
    not JSON). *)
Record Response := {
  status_code : Z;
  body : option Json.t;
}.

(** The URLs the program builds from [API_BASE] and [ORG_ID]. *)
Inductive Url :=
  | DepartmentsPage (page per_page : Z)
  | Departments
  | DepartmentById (dept_id : string)
  | Users.

(** [payload] of [ensure_department]; [None] is a key left out. *)
Module DeptPayload.
Record t := {
  name : string;
  externalId : string;
  parentId : option string;
  label : option string;
  description : option string;
}.
End DeptPayload.

(** [update_payload] of [ensure_department]. *)
Module UpdatePayload.
Record t := {
  externalId : string;
  label : option string;
  description : option string;
}.
End UpdatePayload.

(** [body] of [create_user]; here [None] is Python's [None]. *)
Module UserBody.
Record t := {
  nickname : string;
  departmentId : string;
  first : string;
  last : string;
  middle : option string;
  position : option string;
  language : option string;
  timezone : option string;
  externalId : option string;
  password : option string;
  passwordChangeRequired : bool;
}.
End UserBody.

Inductive Data :=
  | DeptData (p : DeptPayload.t)
  | UpdateData (p : UpdatePayload.t)
  | UserData (p : UserBody.t).

Inductive Request :=
  | GET (url : Url)
  | PATCH (url : Url) (data : Data)
  | POST (url : Url) (data : Data).

(** What the next request meets: a response of any status, or a transport
    failure ([requests.ConnectionError] and the like). *)
Inductive Reply :=
  | Answer (r : Response)
  | Unreachable.

(** ** Exceptions and the monad *)

Inductive Exn :=
  | HTTPError (response : option Response)
  | RuntimeError (msg : string)
  | ValueError (msg : string)
  | KeyError (key : string)
  | JSONDecodeError
  | ConnectionError.

Inductive Outcome (A : Type) :=
  | Return (a : A)
  | Raise (e : Exn)
  | OutOfFuel.
Arguments Return {A} a.
Arguments Raise {A} e.
Arguments OutOfFuel {A}.

(** The state of a run.  [service] is what the directory service is going to
    answer, request after request; [calls] and [sleeps] log the requests
    sent and the [time.sleep] calls made. *)
Record World := {
  DEPT_CACHE : list Dept.t;
  service : list Reply;
  calls : list Request;
  sleeps : list Q;
}.

Definition M (A : Type) : Type := World → Outcome A * World.

Definition ret {A} (a : A) : M A := λ w, (Return a, w).
Definition raise {A} (e : Exn) : M A := λ w, (Raise e, w).
Definition diverge {A} : M A := λ w, (OutOfFuel, w).

Definition bind {A B} (m : M A) (k : A → M B) : M B :=
  λ w, match m w with
       | (Return a, w') => k a w'
       | (Raise e, w') => (Raise e, w')
       | (OutOfFuel, w') => (OutOfFuel, w')
       end.

Notation "'let*' x ':=' m 'in' k" := (bind m (λ x, k))
  (at level 10, x pattern, m at level 100, k at level 200).
Notation "m ';;;' k" := (bind m (λ _, k))
  (at level 100, k at level 200, right associativity).

(** [try: m except requests.HTTPError: h] *)
Definition except_HTTPError {A} (m : M A) (h : option Response → M A) : M A :=
  λ w, match m w with
       | (Raise (HTTPError r), w') => h r w'
       | res => res
       end.

Definition get_cache : M (list Dept.t) := λ w, (Return (DEPT_CACHE w), w).

Definition with_cache (c : list Dept.t) (w : World) : World :=
  {| DEPT_CACHE := c; service := service w; calls := calls w; sleeps := sleeps w |}.

Definition slept (secs : Q) (w : World) : World :=
  {| DEPT_CACHE := DEPT_CACHE w; service := service w; calls := calls w;
     sleeps := sleeps w ++ [secs] |}.

Definition sent (rq : Request) (rest : list Reply) (w : World) : World :=
  {| DEPT_CACHE := DEPT_CACHE w; service := rest; calls := calls w ++ [rq];
     sleeps := sleeps w |}.

Definition set_cache (c : list Dept.t) : M unit := λ w, (Return tt, with_cache c w).

(** [time.sleep(secs)] *)
Definition sleep (secs : Q) : M unit := λ w, (Return tt, slept secs w).

(** [S.get], [S.patch], [S.post]: the request goes out and the service's
    next reply comes back.  A response is returned whatever its status: in
    [requests] only [raise_for_status] turns a status into an [HTTPError]. *)
Definition send (rq : Request) : M Response :=
  λ w, match service w with
       | Answer r :: rest => (Return r, sent rq rest w)
       | Unreachable :: rest => (Raise ConnectionError, sent rq rest w)
       | [] => (Raise ConnectionError, sent rq [] w)
       end.

(** [r.raise_for_status()] *)
Definition raise_for_status (r : Response) : M unit :=
  if decide (400 ≤ status_code r < 600) then raise (HTTPError (Some r)) else ret tt.

(** [r.json()] *)
Definition json (r : Response) : M Json.t :=
  match body r with
  | Some j => ret j
  | None => raise JSONDecodeError
  end.

(** [d["id"]] *)
Definition item_id (d : Dept.t) : M string :=
  match Dept.id d with
  | Some i => ret i
  | None => raise (KeyError "id")
  end.

(** ** Retry wrapper (lines 26-35) *)

Definition transient (status : Z) : bool :=
  bool_decide (status ∈ [429; 500; 502; 503; 504]).

(** [base * (2 ** i)] *)
Definition backoff_delay (base : Q) (i : nat) : Q :=
  (base * inject_Z (2 ^ Z.of_nat i))%Q.

(** The [for i in range(retries)] loop from round [i] on, with [n] rounds
    left. *)
Fixpoint backoff_loop {A} (fn : M A) (base : Q) (n i : nat) : M A :=
  match n with
  | O => raise (RuntimeError "Max retries exceeded")
  | S n' =>
      except_HTTPError fn (λ response,
        match response with
        | Some r =>
            if transient (status_code r)
            then sleep (backoff_delay base i) ;;; backoff_loop fn base n' (S i)
            else raise (HTTPError response)
        | None => raise (HTTPError response)
        end)
  end.

Definition backoff_retry {A} (fn : M A) (retries : nat) (base : Q) : M A :=
  backoff_loop fn base retries 0.

(** The defaults [retries=10, base=1.0]. *)
Definition backoff_retry_default {A} (fn : M A) : M A := backoff_retry fn 10 1%Q.

(** ** Department cache (lines 37-76, 203-205) *)

Definition find_department_by_external_id (cache : list Dept.t) (ext : string)
    : option Dept.t :=
  List.find (λ d, bool_decide (default "" (Dept.externalId d) = ext)) cache.

Definition find_department_by_name (cache : list Dept.t) (nm : string)
    : option Dept.t :=
  List.find (λ d, bool_decide (Dept.name d = Some nm)) cache.

(** ** User rows and request bodies *)

(** A row of [users.csv].  For the columns read with [u.get(key, default)]
    the outer [None] is a missing key and [Some None] is a key whose value
    is [None] (a short line). *)
Module UserRow.
Record t := {
  nickname : string;
  first : string;
  last : string;
  dept_external_id : string;
  middle : option (option string);
  position : option (option string);
  language : option (option string);
  timezone : option (option string);
  externalId : option (option string);
  password : option (option string);
  passwordChangeRequired : option (option string);
}.
End UserRow.

Module UserResult.
Record t := {
  status : string;
  nickname : string;
  id : option string;
}.
End UserResult.

(** [u.get(key, dflt)] *)
Definition dict_get (field : option (option string)) (dflt : string) : option string :=
  match field with
  | None => Some dflt
  | Some v => v
  end.

(** [str(v)] *)
Definition py_str (v : option string) : string :=
  match v with
  | None => "None"
  | Some s => s
  end.

Definition lower_ascii (c : ascii) : ascii :=
  let n := nat_of_ascii c in
  if ((65 <=? n) && (n <=? 90))%nat then ascii_of_nat (n + 32) else c.

(** [s.lower()] on the ASCII letters.  No character outside ASCII lowercases
    to a letter of "true", so the comparison with "true" below is the one
    of Python. *)
Fixpoint lower (s : string) : string :=
  match s with
  | EmptyString => EmptyString
  | String c s' => String (lower_ascii c) (lower s')
  end.

Definition user_body (u : UserRow.t) (dept_id : string) : UserBody.t :=
  {| UserBody.nickname := UserRow.nickname u;
     UserBody.departmentId := dept_id;
     UserBody.first := UserRow.first u;
     UserBody.last := UserRow.last u;
     UserBody.middle := dict_get (UserRow.middle u) "";
     UserBody.position := dict_get (UserRow.position u) "";
     UserBody.language := dict_get (UserRow.language u) "ru";
     UserBody.timezone := dict_get (UserRow.timezone u) "Europe/Moscow";
     UserBody.externalId := dict_get (UserRow.externalId u) "";
     UserBody.password := dict_get (UserRow.password u) "";
     UserBody.passwordChangeRequired :=
       bool_decide (lower (py_str (dict_get (UserRow.passwordChangeRequired u) "true"))
                    = "true") |}.

Section Directory.

(** The [while True] loop of [list_all_departments] runs as long as the
  service announces further pages; [fuel] bounds the number of pages one
  listing may fetch.  The [except] clause of the loop prints and re-raises,
  and printing is not part of the model. *)
Variable fuel : nat.

Fixpoint list_pages (n : nat) (page : Z) (result : list Dept.t) : M (list Dept.t) :=
match n with
| O => diverge
| S n' =>
    let* r := backoff_retry_default (send (GET (DepartmentsPage page 100))) in
    raise_for_status r ;;;
    let* data := json r in
    let result' := result ++ default [] (Json.departments data) in
    if decide (default 1 (Json.pages data) ≤ page)
    then ret result'
    else list_pages n' (page + 1) result'
end.

Definition list_all_departments : M (list Dept.t) := list_pages fuel 1 [].

Definition refresh_dept_cache : M unit :=
let* c := list_all_departments in set_cache c.

(** ** Idempotent upsert of one department (lines 78-153) *)

(** The [for i, dept in enumerate(DEPT_CACHE)] loop of the adoption branch:
  the first entry whose id is [target] is replaced; [None] is the
  [KeyError] of [dept["id"]] on an entry without id met before that. *)
Fixpoint replace_by_id (cache : list Dept.t) (target : string) (updated : Dept.t)
  : option (list Dept.t) :=
match cache with
| [] => Some []
| d :: rest =>
    match Dept.id d with
    | None => None
    | Some i =>
        if decide (i = target) then Some (updated :: rest)
        else (d ::.) <$> replace_by_id rest target updated
    end
end.

Definition update_payload (external_id : string) (label description : option string)
  : UpdatePayload.t :=
{| UpdatePayload.externalId := external_id;
   UpdatePayload.label := or_None label;
   UpdatePayload.description := or_None description |}.

(** Lines 91-112, the body of the [try] of the adoption branch. *)
Definition ensure_department_adopt (existing_by_name : Dept.t)
  (external_id : string) (label description : option string) : M string :=
let* target := item_id existing_by_name in
let* r := backoff_retry_default
            (send (PATCH (DepartmentById target)
                         (UpdateData (update_payload external_id label description)))) in
raise_for_status r ;;;
let* j := json r in
let updated := {| Dept.id := Json.id j; Dept.externalId := Some external_id;
                  Dept.name := Json.name j |} in
let* cache := get_cache in
match replace_by_id cache target updated with
| None => raise (KeyError "id")
| Some cache' => set_cache cache' ;;; item_id updated
end.

Definition create_payload (nm external_id : string)
  (parent_id label description : option string) : DeptPayload.t :=
{| DeptPayload.name := nm;
   DeptPayload.externalId := external_id;
   DeptPayload.parentId := or_None parent_id;
   DeptPayload.label := or_None label;
   DeptPayload.description := or_None description |}.

(** Lines 117-153, from the construction of [payload] on.  The [except]
  clause prints and re-raises. *)
Definition ensure_department_create (nm external_id : string)
  (parent_id label description : option string) : M string :=
let* r := backoff_retry_default
            (send (POST Departments
                        (DeptData (create_payload nm external_id parent_id
                                                  label description)))) in
let* found :=
  if decide (status_code r = 409) then
    refresh_dept_cache ;;;
    let* cache := get_cache in
    match find_department_by_external_id cache external_id with
    | Some d => let* i := item_id d in ret (Some i)
    | None => raise_for_status r ;;; ret None
    end
  else ret None in
match found with
| Some i => ret i
| None =>
    raise_for_status r ;;;
    let* j := json r in
    let created := {| Dept.id := Json.id j; Dept.externalId := Some external_id;
                      Dept.name := Json.name j |} in
    let* cache := get_cache in
    set_cache (cache ++ [created]) ;;;
    item_id created
end.

Definition ensure_department (nm external_id : string)
  (parent_id label description : option string) : M string :=
let* cache := get_cache in
let existing := if decide (external_id = "") then None
                else find_department_by_external_id cache external_id in
match existing with
| Some d => item_id d
| None =>
    let* adopted :=
      match find_department_by_name cache nm with
      | Some d =>
          if decide (or_None (Dept.externalId d) = None)
          then except_HTTPError
                 (let* i := ensure_department_adopt d external_id label description in
                  ret (Some i))
                 (λ _, ret None)
          else ret None
      | None => ret None
      end in
    match adopted with
    | Some i => ret i
    | None => ensure_department_create nm external_id parent_id label description
    end
end.

(** ** Departments in top-down order (lines 155-201) *)

Definition cycle_message : string := "Обнаружен цикл в иерархии подразделений".

Definition parent_missing_message (p ext : string) : string :=
String.append "Родитель "
  (String.append p (String.append " не создан к моменту создания " ext)).

(** Lines 186-192: the parent id handed to [ensure_department]. *)
Definition resolve_parent (B : gmap string DeptRow) (ext_to_id : gmap string string)
  (ext : string) (r : DeptRow) : M (option string) :=
match pe r with
| Some p =>
    let parent_id := ext_to_id !! p in
    if decide (parent_id = None ∧ is_Some (B !! p))
    then raise (RuntimeError (parent_missing_message p ext))
    else ret parent_id
| None => ret None
end.

(** The [for ext in order] loop. *)
Fixpoint create_departments (B : gmap string DeptRow) (order : list string)
  (ext_to_id : gmap string string) : M (gmap string string) :=
match order with
| [] => ret ext_to_id
| ext :: rest =>
    match B !! ext with
    | None => raise (KeyError ext)
    | Some r =>
        let* parent_id := resolve_parent B ext_to_id ext r in
        let* dep_id := ensure_department (name r) (external_id r) parent_id
                         (or_None (label r)) (or_None (description r)) in
        create_departments B rest (<[ext := dep_id]> ext_to_id)
    end
end.

Definition build_hierarchy_and_create (dept_rows : list DeptRow)
  : M (gmap string string) :=
match kahn_order dept_rows with
| None => diverge
| Some order =>
    if decide (length order ≠ length dept_rows)
    then raise (ValueError cycle_message)
    else create_departments (by_ext dept_rows) order ∅
end.

(** ** Users (lines 207-230 and 339-346) *)

Definition create_user (u : UserRow.t) (ext_to_id : gmap string string)
  : M UserResult.t :=
match ext_to_id !! UserRow.dept_external_id u with
| None => raise (KeyError (UserRow.dept_external_id u))
| Some dept_id =>
    let* r := backoff_retry_default
                (send (POST Users (UserData (user_body u dept_id)))) in
    if decide (status_code r = 409) then
      ret {| UserResult.status := "exists";
             UserResult.nickname := UserRow.nickname u;
             UserResult.id := None |}
    else
      raise_for_status r ;;;
      let* j := json r in
      ret {| UserResult.status := "created";
             UserResult.nickname := UserRow.nickname u;
             UserResult.id := Json.id j |}
end.

Definition department_not_found (u : UserRow.t) : Exn :=
ValueError (String.append "Department not found: "
             (String.append (UserRow.dept_external_id u)
               (String.append " for user " (UserRow.nickname u)))).

(** Lines 339-346: the [for u in user_rows] loop of the main block. *)
Fixpoint create_users (user_rows : list UserRow.t) (ext_to_id : gmap string string)
  (results : list UserResult.t) : M (list UserResult.t) :=
match user_rows with
| [] => ret results
| u :: rest =>
    if decide (ext_to_id !! UserRow.dept_external_id u = None)
    then raise (department_not_found u)
    else
      let* res := create_user u ext_to_id in
      sleep (1 # 2) ;;;
      create_users rest ext_to_id (results ++ [res])
end.


End Directory.

(** ** Notions used to state the properties of the resolution order *)

(** [x] comes before [y] in [l]. *)
Definition before (x y : string) (l : list string) : Prop :=
  ∃ i j : nat, l !! i = Some x ∧ l !! j = Some y ∧ (i < j)%nat.

(** [v]'s row names [p] as its parent, and [p] is a key of the input. *)
Definition parent_link (dept_rows : list DeptRow) (v p : string) : Prop :=
  ∃ r, r ∈ dept_rows ∧ external_id r = v ∧ pe r = Some p ∧ p ∈ ids dept_rows.

(** A chain of parent links that comes back to where it started. *)
Definition has_cycle (dept_rows : list DeptRow) : Prop :=
  ∃ x, tc (parent_link dept_rows) x x.

Definition acyclic (dept_rows : list DeptRow) : Prop := ¬ has_cycle dept_rows.

(** The parent of a key inside the input, when keys are unique. *)
Definition par (dept_rows : list DeptRow) (v : string) : option string :=
  by_ext dept_rows !! v ≫= in_set_parent (by_ext dept_rows).

(** The chain of parents above [v], at most [n] links long. *)
Fixpoint ancestors (dept_rows : list DeptRow) (n : nat) (v : string) : list string :=
  match n with
  | O => []
  | S n' =>
      match par dept_rows v with
      | None => []
      | Some p => p :: ancestors dept_rows n' p
      end
  end.

(** Invariant of the [while q] loop, for any input: the keys [L] that have
    been queued so far are distinct keys of the input [K] whose in-degree is
    used up. *)
Definition queued_ok (K : list string) (m : gmap string Z) (L : list string) : Prop :=
  NoDup L ∧ (∀ v, v ∈ L → od_getd m v ≤ 0) ∧ (∀ v, v ∈ L → v ∈ K).

(** Invariant of the [while q] loop when keys are unique: roots and the
    children of ordered keys are queued, the others wait with in-degree 1,
    and a queued key comes after its parent. *)
Definition forest_ok (K : list string) (parent : string → option string)
    (m : gmap string Z) (q o : list string) : Prop :=
  (∀ v, v ∈ K → parent v = None → v ∈ o ++ q)
  ∧ (∀ v p, v ∈ K → parent v = Some p → p ∈ o → v ∈ o ++ q)
  ∧ (∀ v p, v ∈ K → parent v = Some p → p ∉ o → od_getd m v = 1)
  ∧ (∀ v p, parent v = Some p → v ∈ o ++ q → before p v (o ++ q)).

(** ** Notions used to state the properties of the upsert and of the user step *)

(** What [d["id"]] gives. *)
Definition id_outcome (d : Dept.t) : Outcome string :=
  match Dept.id d with
  | Some i => Return i
  | None => Raise (KeyError "id")
  end.

(** The id under which the cache holds the external id [ext]. *)
Definition cached_id (cache : list Dept.t) (ext : string) : option string :=
  find_department_by_external_id cache ext ≫= Dept.id.

(** [{"status": "exists", "nickname": u["nickname"]}] *)
Definition user_exists (u : UserRow.t) : UserResult.t :=
  {| UserResult.status := "exists"; UserResult.nickname := UserRow.nickname u;
     UserResult.id := None |}.

(** Every request [m] adds to the log satisfies [P]; the log only grows. *)
Definition issues {A} (P : Request → Prop) (m : M A) : Prop :=
  ∀ w, ∃ new, calls (m w).2 = calls w ++ new ∧ Forall P new.

(** The requests of one upsert: pages of the listing, an update, and a
    create whose payload is built from the arguments. *)
Definition upsert_request (nm ext : string) (parent lbl desc : option string)
    (rq : Request) : Prop :=
  match rq with
  | GET (DepartmentsPage _ _) => True
  | PATCH (DepartmentById _) (UpdateData p) => p = update_payload ext lbl desc
  | POST Departments (DeptData p) => p = create_payload nm ext parent lbl desc
  | _ => False
  end.

(** A create for the key [ext] leaves [parentId] out. *)
Definition creates_without_parent (ext : string) (rq : Request) : Prop :=
  ∀ payload, rq = POST Departments (DeptData payload) →
    DeptPayload.externalId payload = ext → DeptPayload.parentId payload = None.

(** ** Sample data *)

Definition mkrow (e n : string) (p : option string) : DeptRow :=
  {| external_id := e; name := n; parent_external_id := p;
     label := None; description := None |}.

Definition reply (status : Z) (j : option Json.t) : Reply :=
  Answer {| status_code := status; body := j |}.

Definition json_department (i : string) : Json.t :=
  {| Json.id := Some i; Json.externalId := None; Json.name := None;
     Json.departments := None; Json.pages := None |}.

Definition json_listing (ds : list Dept.t) : Json.t :=
  {| Json.id := None; Json.externalId := None; Json.name := None;
     Json.departments := Some ds; Json.pages := Some 1 |}.

Definition remote (i : string) (ext : option string) (nm : string) : Dept.t :=
  {| Dept.id := Some i; Dept.externalId := ext; Dept.name := Some nm |}.

Definition world (cache : list Dept.t) (svc : list Reply) : World :=
  {| DEPT_CACHE := cache; service := svc; calls := []; sleeps := [] |}.

Definition user (nick dept : string) : UserRow.t :=
  {| UserRow.nickname := nick; UserRow.first := "Ivan"; UserRow.last := "Petrov";
     UserRow.dept_external_id := dept;
     UserRow.middle := None; UserRow.position := None; UserRow.language := None;
     UserRow.timezone := None; UserRow.externalId := None; UserRow.password := None;
     UserRow.passwordChangeRequired := None |}.

Definition rows_chain : list DeptRow :=
  [mkrow "C" "c" (Some "B"); mkrow "B" "b" (Some "A"); mkrow "A" "a" (Some "")].

Definition rows_loop : list DeptRow :=
  [mkrow "X" "x" (Some "Y"); mkrow "Y" "y" (Some "X")].

Definition cache_chain : list Dept.t :=
  [remote "1" (Some "A") "a"; remote "2" (Some "B") "b"; remote "3" (Some "C") "c"].


(** ** Notions used to state further properties *)

(** The keys of the rows that name no parent among the rows, in the order of
    the input. *)
Definition roots (dept_rows : list DeptRow) : list string :=
  external_id <$> filter (λ r, in_set_parent (by_ext dept_rows) r = None) dept_rows.



(** Every exception [m] raises satisfies [P]. *)
Definition raises_only {A} (P : Exn → Prop) (m : M A) : Prop :=
  ∀ w e, (m w).1 = Raise e → P e.

(** The exceptions that come from talking to the service: an error status,
    a transport failure, a body that is not JSON, an object without id. *)
Definition service_error (e : Exn) : Prop :=
  (∃ r, e = HTTPError r) ∨ e = ConnectionError ∨ e = JSONDecodeError
  ∨ e = KeyError "id".

(** The answer of the service to the listing of one page: [ds] are the
    departments of the page and [total] the number of pages. *)
Definition page_reply (total : Z) (ds : list Dept.t) : Reply :=
  reply 200 (Some {| Json.id := None; Json.externalId := None; Json.name := None;
                     Json.departments := Some ds; Json.pages := Some total |}).

(** The requests for the [k] pages from [first] on. *)
Definition page_requests (first : Z) (k : nat) : list Request :=
  (λ i : nat, GET (DepartmentsPage (first + Z.of_nat i) 100)) <$> seq 0 k.

Definition fetched (rqs : list Request) (rest : list Reply) (w : World) : World :=
  {| DEPT_CACHE := DEPT_CACHE w; service := rest; calls := calls w ++ rqs;
     sleeps := sleeps w |}.

(** The requests that create the users [users] of departments known to
    [ext_to_id], one per user. *)
Definition user_requests (ext_to_id : gmap string string) (users : list UserRow.t)
    : list Request :=
  omap (λ u, (λ i, POST Users (UserData (user_body u i)))
             <$> ext_to_id !! UserRow.dept_external_id u) users.

(** ** Validation of the rows (lines 245-271) *)

(** [row.get(field)] is truthy, for a row as [csv.DictReader] yields it: a
    [dict] from column names to cells, where the cell of a short line is
    [None]. *)
Definition has_value (row : gmap string (option string)) (field : string) : bool :=
  match row !! field with
  | Some (Some s) => bool_decide (s ≠ "")
  | _ => false
  end.

(** [row[field]], for a field that has a value. *)
Definition row_item (row : gmap string (option string)) (field : string) : string :=
  match row !! field with
  | Some (Some s) => s
  | _ => ""
  end.

(** The [ValueError] of a validation, by what its message is built from:
    the number of the line and the name of the field, or the name of the
    column and the set of values that are repeated. *)
Inductive ValidationError :=
  | MissingField (row_number : nat) (field : string)
  | Duplicates (column : string) (values : gset string).

(** The inner loop [for field in required_fields]: the first field without
    value. *)
Fixpoint missing_field (required_fields : list string)
    (row : gmap string (option string)) : option string :=
  match required_fields with
  | [] => None
  | field :: fields =>
      if has_value row field then missing_field fields row else Some field
  end.

(** The loop [for i, row in enumerate(rows, start=i)]. *)
Fixpoint check_required (required_fields : list string) (i : nat)
    (rows : list (gmap string (option string))) : option ValidationError :=
  match rows with
  | [] => None
  | row :: rest =>
      match missing_field required_fields row with
      | Some field => Some (MissingField i field)
      | None => check_required required_fields (S i) rest
      end
  end.

(** [set([x for x in xs if xs.count(x) > 1])] *)
Definition duplicated (xs : list string) : gset string :=
  list_to_set (filter (λ x, (1 < length (filter (λ y, y = x) xs))%nat) xs).

(** [None] stands for a return without exception. *)
Definition validate_departments_csv (dept_rows : list (gmap string (option string)))
    : option ValidationError :=
  match check_required ["external_id"; "name"] 2 dept_rows with
  | Some e => Some e
  | None =>
      let external_ids := (λ row, row_item row "external_id") <$> dept_rows in
      let duplicates := duplicated external_ids in
      if decide (duplicates = ∅) then None
      else Some (Duplicates "external_id" duplicates)
  end.

Definition validate_users_csv (user_rows : list (gmap string (option string)))
    : option ValidationError :=
  match check_required ["nickname"; "first"; "last"; "dept_external_id"] 2 user_rows with
  | Some e => Some e
  | None =>
      let nicknames := (λ row, row_item row "nickname") <$> user_rows in
      let duplicates := duplicated nicknames in
      if decide (duplicates = ∅) then None
      else Some (Duplicates "nickname" duplicates)
  end.

(** The row of [departments.csv] as [build_hierarchy_and_create] reads it. *)
Definition dept_row_of (row : gmap string (option string)) : DeptRow :=
  {| external_id := row_item row "external_id";
     name := row_item row "name";
     parent_external_id := mjoin (row !! "parent_external_id");
     label := mjoin (row !! "label");
     description := mjoin (row !! "description") |}.

(** The row of [users.csv] as [create_user] and the user loop read it. *)
Definition user_row_of (row : gmap string (option string)) : UserRow.t :=
  {| UserRow.nickname := row_item row "nickname";
     UserRow.first := row_item row "first";
     UserRow.last := row_item row "last";
     UserRow.dept_external_id := row_item row "dept_external_id";
     UserRow.middle := row !! "middle";
     UserRow.position := row !! "position";
     UserRow.language := row !! "language";
     UserRow.timezone := row !! "timezone";
     UserRow.externalId := row !! "externalId";
     UserRow.password := row !! "password";
     UserRow.passwordChangeRequired := row !! "passwordChangeRequired" |}.

Definition csv_row (cells : list (string * string)) : gmap string (option string) :=
  list_to_map (prod_map id Some <$> cells).

(** The create requests among [new] for the key of a row with a parent in
    the input carry the id [m] holds for the parent. *)
Definition parents_sent (rows : list DeptRow) (m : gmap string string)
    (new : list Request) : Prop :=
  ∀ payload r p,
    POST Departments (DeptData payload) ∈ new → r ∈ rows →
    DeptPayload.externalId payload = external_id r →
    pe r = Some p → p ∈ ids rows →
    ∃ i, m !! p = Some i ∧ DeptPayload.parentId payload = or_None (Some i).
(** * Properties *)

(** ** Facts on [by_ext] *)

Lemma by_ext_snoc rows r :
  by_ext (rows ++ [r]) = <[external_id r := r]> (by_ext rows).
Proof. unfold by_ext. by rewrite foldl_snoc. Qed.

Lemma ids_snoc rows r : ids (rows ++ [r]) = ids rows ++ [external_id r].
Proof. unfold ids. by rewrite fmap_app. Qed.

Lemma by_ext_lookup_Some rows k r :
  by_ext rows !! k = Some r → r ∈ rows ∧ external_id r = k.
Proof.
  induction rows as [|r' rows IH] using rev_ind.
  - unfold by_ext; simpl. by rewrite lookup_empty.
  - rewrite by_ext_snoc, lookup_insert. case_decide as Hk.
    + intros [= <-]. split; [set_solver | done].
    + intros H. destruct (IH H). set_solver.
Qed.

Lemma by_ext_is_Some rows k : is_Some (by_ext rows !! k) ↔ k ∈ ids rows.
Proof.
  induction rows as [|r rows IH] using rev_ind.
  - unfold by_ext; simpl. rewrite lookup_empty. split; [by intros [? ?] | by intros ?%elem_of_nil].
  - rewrite by_ext_snoc, ids_snoc, lookup_insert, elem_of_app, list_elem_of_singleton.
    case_decide; naive_solver.
Qed.

Lemma by_ext_lookup_NoDup rows r :
  NoDup (ids rows) → r ∈ rows → by_ext rows !! external_id r = Some r.
Proof.
  induction rows as [|r' rows IH] using rev_ind; [by intros _ ?%elem_of_nil|].
  rewrite ids_snoc, by_ext_snoc, NoDup_app, elem_of_app, list_elem_of_singleton.
  intros (Hnd & Hfresh & _) [Hr | ->].
  - rewrite lookup_insert_ne; [by apply IH|].
    intros Heq. apply (Hfresh (external_id r)); [|set_solver].
    apply list_elem_of_fmap. eauto.
  - apply lookup_insert_eq.
Qed.

(** ** The first loop: what [graph] and [indeg] hold after it *)

Section build.
Variable B : gmap string DeptRow.

Lemma build_graph_snoc l r :
  build_graph B (l ++ [r]) = build_step B (build_graph B l) r.
Proof. unfold build_graph. by rewrite foldl_snoc. Qed.

Lemma built_children l p :
  children (build_graph B l).1 p
  = external_id <$> filter (λ r, in_set_parent B r = Some p) l.
Proof.
  induction l as [|r l IH] using rev_ind; [done|].
  rewrite build_graph_snoc, filter_app, fmap_app, <- IH. unfold build_step.
  destruct (in_set_parent B r) as [p'|] eqn:Hp; simpl.
  - unfold children at 1. rewrite lookup_insert. case_decide as Hpp.
    + subst p'. by rewrite filter_cons_True.
    + rewrite filter_cons_False by congruence. simpl. by rewrite app_nil_r.
  - rewrite filter_cons_False by congruence. simpl. by rewrite app_nil_r.
Qed.

Lemma built_keys l :
  NoDup (od_keys (build_graph B l).2)
  ∧ (∀ k, k ∈ od_keys (build_graph B l).2 ↔ k ∈ ids l)
  ∧ (∀ k, is_Some (od_map (build_graph B l).2 !! k) ↔ k ∈ ids l).
Proof.
  induction l as [|r l (Hnd & Hk & Hm)] using rev_ind.
  { simpl. split; [constructor|]. split; intros k.
    - done.
    - rewrite lookup_empty. split; [by intros [? ?] | by intros ?%elem_of_nil]. }
  rewrite build_graph_snoc, ids_snoc. unfold build_step.
  assert (Hfresh : od_map (build_graph B l).2 !! external_id r = None
                   → external_id r ∉ od_keys (build_graph B l).2).
  { intros Hn Hin. apply Hk, Hm in Hin. rewrite Hn in Hin. by destruct Hin. }
  destruct (in_set_parent B r); simpl; unfold od_setdefault, od_set;
    destruct (od_map (build_graph B l).2 !! external_id r) as [z|] eqn:Hz; simpl.
  all: (split; [|split]).
  all: try done.
  all: try (apply NoDup_app; split; [done|]; split; [|apply NoDup_singleton];
            intros x Hx ->%list_elem_of_singleton; by apply Hfresh).
  all: intros k; rewrite ?elem_of_app, ?list_elem_of_singleton, ?lookup_insert_is_Some.
  all: try rewrite Hk; try rewrite Hm.
  all: try (assert (external_id r ∈ ids l) by (apply Hm; eauto)).
  all: destruct (decide (external_id r = k)); naive_solver.
Qed.

Lemma built_indeg_NoDup l r :
  NoDup (ids l) → r ∈ l →
  od_map (build_graph B l).2 !! external_id r
  = Some (if in_set_parent B r then 1 else 0).
Proof.
  induction l as [|r' l IH] using rev_ind; [by intros _ ?%elem_of_nil|].
  rewrite ids_snoc, build_graph_snoc, NoDup_app, elem_of_app, list_elem_of_singleton.
  intros (Hnd & Hfresh & _) Hin.
  assert (Hnew : od_map (build_graph B l).2 !! external_id r' = None).
  { apply eq_None_not_Some. intros H%built_keys. apply (Hfresh _ H). set_solver. }
  unfold build_step, od_setdefault, od_set, od_getd. rewrite Hnew.
  destruct Hin as [Hin | ->].
  - assert (external_id r' ≠ external_id r).
    { intros Heq. apply (Hfresh (external_id r)); [|set_solver].
      apply list_elem_of_fmap. eauto. }
    destruct (in_set_parent B r'); simpl; rewrite lookup_insert_ne by done; by apply IH.
  - destruct (in_set_parent B r'); simpl; by rewrite lookup_insert_eq.
Qed.
End build.

(** ** The [while q] loop *)

Lemma before_app_l x y l k : before x y l → before x y (l ++ k).
Proof.
  intros (i & j & Hi & Hj & Hij). exists i, j.
  split_and!; [by apply lookup_app_l_Some | by apply lookup_app_l_Some | done].
Qed.

Lemma before_app_r x y l k : x ∈ l → y ∈ k → before x y (l ++ k).
Proof.
  intros (i & Hi)%list_elem_of_lookup (j & Hj)%list_elem_of_lookup.
  exists i, (length l + j)%nat. split_and!.
  - by apply lookup_app_l_Some.
  - by rewrite lookup_app_r, Nat.add_comm, Nat.add_sub by lia.
  - apply lookup_lt_Some in Hi. lia.
Qed.

Lemma before_trans l x y z :
  NoDup l → before x y l → before y z l → before x z l.
Proof.
  intros Hnd (i & j & Hi & Hj & Hij) (j' & k & Hj' & Hk & Hjk).
  assert (j = j') as <- by (eapply NoDup_lookup; eauto).
  exists i, k. split_and!; [done..|lia].
Qed.

Lemma before_irrefl l x : NoDup l → ¬ before x x l.
Proof.
  intros Hnd (i & j & Hi & Hj & Hij).
  assert (i = j) by (eapply NoDup_lookup; eauto). lia.
Qed.

Lemma od_getd_insert m k z k' :
  od_getd (<[k := z]> m) k' = if decide (k = k') then z else od_getd m k'.
Proof. unfold od_getd. rewrite lookup_insert. by case_decide. Qed.

Lemma od_getd_insert_eq m k z : od_getd (<[k := z]> m) k = z.
Proof. by rewrite od_getd_insert, decide_True. Qed.

Lemma od_getd_insert_ne m k z k' : k ≠ k' → od_getd (<[k := z]> m) k' = od_getd m k'.
Proof. intros. by rewrite od_getd_insert, decide_False. Qed.

Section loop.
(** [K] stands for the keys of the input, [graph] for the graph built by
    the first loop. *)
Variable K : list string.
Variable graph : gmap string (list string).
Hypothesis children_in : ∀ u v, v ∈ children graph u → v ∈ K.

Lemma relax_queued vs : ∀ m o q m' q',
  (∀ v, v ∈ vs → v ∈ K) →
  queued_ok K m (o ++ q) → relax vs m q = (m', q') → queued_ok K m' (o ++ q').
Proof.
  induction vs as [|v vs IH]; intros m o q m' q' Hvs Hok; simpl.
  { by intros [= <- <-]. }
  apply IH; [set_solver|]. destruct Hok as (Hnd & Hle & Hin).
  rewrite od_getd_insert_eq.
  case_decide as Hz.
  - assert (v ∉ o ++ q) by (intros ?%Hle; lia).
    rewrite app_assoc. split_and!.
    + apply NoDup_app. split_and!; [done| |apply NoDup_singleton].
      by intros x Hx ->%list_elem_of_singleton.
    + intros x. rewrite od_getd_insert, elem_of_app, list_elem_of_singleton.
      case_decide; [lia|]. intros [?|?]; [by apply Hle|congruence].
    + intros x. rewrite elem_of_app, list_elem_of_singleton.
      intros [?| ->]; [by apply Hin|]. apply Hvs. set_solver.
  - split_and!; [done| |done].
    intros x Hx. rewrite od_getd_insert. case_decide as Hv; [|by apply Hle].
    subst x. apply Hle in Hx. lia.
Qed.

Lemma relax_queued_step m u q o m' q' :
  queued_ok K m (o ++ u :: q) → relax (children graph u) m q = (m', q') →
  queued_ok K m' ((o ++ [u]) ++ q').
Proof.
  intros Hok Hrelax.
  eapply (relax_queued _ m (o ++ [u])); [by apply children_in | | done].
  by rewrite <- app_assoc.
Qed.

Lemma kahn_loop_queued fuel : ∀ m q o res,
  queued_ok K m (o ++ q) → kahn_loop fuel graph m q o = Some res →
  NoDup res ∧ (∀ v, v ∈ res → v ∈ K).
Proof.
  induction fuel as [|fuel IH]; intros m q o res Hok; simpl; [done|].
  destruct q as [|u q].
  - intros [= <-]. rewrite app_nil_r in Hok. by destruct Hok as (? & _ & ?).
  - destruct (relax (children graph u) m q) as [m' q'] eqn:Hrelax.
    apply IH. by eapply relax_queued_step.
Qed.

Lemma queued_length m L : queued_ok K m L → (length L ≤ length K)%nat.
Proof.
  intros (Hnd & _ & Hin). apply submseteq_length. by apply NoDup_submseteq.
Qed.

(** The loop needs at most one round per key, and one more to see the
    empty queue. *)
Lemma kahn_loop_total fuel : ∀ m q o,
  queued_ok K m (o ++ q) → (length K < fuel + length o)%nat →
  is_Some (kahn_loop fuel graph m q o).
Proof.
  induction fuel as [|fuel IH]; intros m q o Hok Hfuel; simpl.
  { apply queued_length in Hok. rewrite length_app in Hok. lia. }
  destruct q as [|u q]; [by eexists|].
  destruct (relax (children graph u) m q) as [m' q'] eqn:Hrelax.
  apply IH.
  - by eapply relax_queued_step.
  - rewrite length_app. simpl. lia.
Qed.

(** *** With unique keys: the graph is a forest of parent links *)

Variable par : string → option string.
Hypothesis children_par : ∀ u v, v ∈ children graph u ↔ v ∈ K ∧ par v = Some u.
Hypothesis children_NoDup : ∀ u, NoDup (children graph u).

Lemma relax_fresh vs : ∀ m q m' q',
  NoDup vs → (∀ v, v ∈ vs → od_getd m v = 1) → relax vs m q = (m', q') →
  q' = q ++ vs
  ∧ (∀ v, v ∈ vs → od_getd m' v = 0)
  ∧ (∀ v, v ∉ vs → od_getd m' v = od_getd m v).
Proof.
  induction vs as [|v vs IH]; intros m q m' q' Hnd Hone; simpl.
  { intros [= <- <-]. rewrite app_nil_r. set_solver. }
  apply NoDup_cons in Hnd as [Hv Hnd].
  rewrite od_getd_insert_eq.
  rewrite (Hone v) by set_solver. rewrite decide_True by done.
  intros (-> & Hzero & Hsame)%IH; [|done|].
  - split_and!.
    + by rewrite <- app_assoc.
    + intros x [->|Hx]%elem_of_cons; [|by apply Hzero].
      rewrite Hsame by done. by rewrite od_getd_insert_eq.
    + intros x [Hxv Hx]%not_elem_of_cons. rewrite Hsame by done.
      by rewrite od_getd_insert_ne.
  - intros x Hx. rewrite od_getd_insert_ne by set_solver.
    apply Hone. set_solver.
Qed.

Lemma forest_step m u q o m' q' :
  queued_ok K m (o ++ u :: q) → forest_ok K par m (u :: q) o →
  relax (children graph u) m q = (m', q') →
  forest_ok K par m' q' (o ++ [u]).
Proof.
  intros (Hnd & Hle & Hin) (Hroot & Hdone & Hwait & Hbefore) Hrelax.
  assert (Hu : u ∉ o).
  { apply NoDup_app in Hnd as (_ & Hdisj & _). intros ?%Hdisj. set_solver. }
  apply relax_fresh in Hrelax as (-> & Hzero & Hsame); [|done|].
  2:{ intros v (Hv & Hpar)%children_par. by apply (Hwait v u). }
  assert (HL : (o ++ [u]) ++ q ++ children graph u = (o ++ u :: q) ++ children graph u).
  { by rewrite <- !app_assoc. }
  unfold forest_ok. rewrite HL. split_and!.
  - intros v Hv Hpar. apply elem_of_app. left. by apply Hroot.
  - intros v p Hv Hpar [Hp | ->%list_elem_of_singleton]%elem_of_app; apply elem_of_app.
    + left. by apply (Hdone v p).
    + right. by apply children_par.
  - intros v p Hv Hpar Hp. rewrite Hsame.
    + apply (Hwait v p); [done..|]. set_solver.
    + intros (_ & Hpar')%children_par. set_solver.
  - intros v p Hpar [Hv | Hv]%elem_of_app.
    + by apply before_app_l, Hbefore.
    + apply children_par in Hv as (Hv & Hpar').
      assert (p = u) as -> by congruence.
      apply before_app_r; [set_solver|]. by apply children_par.
Qed.

Lemma kahn_loop_forest fuel : ∀ m q o res,
  queued_ok K m (o ++ q) → forest_ok K par m q o →
  kahn_loop fuel graph m q o = Some res →
  ∃ m', forest_ok K par m' [] res.
Proof.
  induction fuel as [|fuel IH]; intros m q o res Hok Hf; simpl; [done|].
  destruct q as [|u q]; [intros [= <-]; eauto|].
  destruct (relax (children graph u) m q) as [m' q'] eqn:Hrelax.
  apply IH; [by eapply relax_queued_step | by eapply forest_step].
Qed.
End loop.

(** ** The resolution order of a list of rows *)

Lemma in_set_parent_spec rows r p :
  in_set_parent (by_ext rows) r = Some p ↔ pe r = Some p ∧ p ∈ ids rows.
Proof.
  unfold in_set_parent. destruct (pe r) as [p'|]; [|naive_solver].
  case_decide as Hp; rewrite by_ext_is_Some in Hp; naive_solver.
Qed.

Lemma par_row rows r :
  NoDup (ids rows) → r ∈ rows →
  par rows (external_id r) = in_set_parent (by_ext rows) r.
Proof. intros Hnd Hr. unfold par. by rewrite by_ext_lookup_NoDup. Qed.

Lemma parent_link_par rows v p :
  NoDup (ids rows) →
  parent_link rows v p ↔ v ∈ ids rows ∧ par rows v = Some p.
Proof.
  intros Hnd. split.
  - intros (r & Hr & <- & Hpe & Hp). split; [by apply list_elem_of_fmap_2|].
    rewrite par_row by done. by apply in_set_parent_spec.
  - intros [(r & -> & Hr)%list_elem_of_fmap Hpar].
    rewrite par_row in Hpar by done. apply in_set_parent_spec in Hpar as [? ?].
    by exists r.
Qed.

Section order.
Variable dept_rows : list DeptRow.

Lemma kahn_order_unfold :
  kahn_order dept_rows
  = kahn_loop (S (length dept_rows)) (build_graph (by_ext dept_rows) dept_rows).1 (od_map (build_graph (by_ext dept_rows) dept_rows).2) (od_zero_keys (build_graph (by_ext dept_rows) dept_rows).2) [].
Proof.
  unfold kahn_order. by destruct (build_graph _ _).
Qed.

Lemma graph_children_in u v : v ∈ children (build_graph (by_ext dept_rows) dept_rows).1 u → v ∈ ids dept_rows.
Proof.
  rewrite built_children.
  intros (r & -> & [_ Hr]%list_elem_of_filter)%list_elem_of_fmap.
  by apply list_elem_of_fmap_2.
Qed.

Lemma initial_queued : queued_ok (ids dept_rows) (od_map (build_graph (by_ext dept_rows) dept_rows).2) ([] ++ od_zero_keys (build_graph (by_ext dept_rows) dept_rows).2).
Proof.
  destruct (built_keys (by_ext dept_rows) dept_rows) as (Hnd & Hk & Hm). simpl.
  unfold od_zero_keys. split_and!.
  - by apply NoDup_filter.
  - intros v [Hv _]%list_elem_of_filter. unfold od_getd. by rewrite Hv.
  - intros v [_ Hv]%list_elem_of_filter. by apply Hk.
Qed.

Lemma kahn_order_total : is_Some (kahn_order dept_rows).
Proof.
  rewrite kahn_order_unfold.
  apply (kahn_loop_total (ids dept_rows)).
  - apply graph_children_in.
  - apply initial_queued.
  - unfold ids. rewrite length_fmap. simpl. lia.
Qed.

Lemma kahn_order_NoDup order :
  kahn_order dept_rows = Some order →
  NoDup order ∧ (∀ v, v ∈ order → v ∈ ids dept_rows).
Proof.
  rewrite kahn_order_unfold.
  apply (kahn_loop_queued (ids dept_rows)).
  - apply graph_children_in.
  - apply initial_queued.
Qed.

(** An order as long as the input holds every key once, and then the keys
    of the input are distinct. *)
Lemma kahn_order_full order :
  kahn_order dept_rows = Some order → length order = length dept_rows →
  order ≡ₚ ids dept_rows.
Proof.
  intros [Hnd Hin]%kahn_order_NoDup Hlen.
  apply submseteq_length_Permutation; [by apply NoDup_submseteq|].
  unfold ids. rewrite length_fmap. lia.
Qed.

Hypothesis ids_NoDup : NoDup (ids dept_rows).

Lemma graph_children_par u v :
  v ∈ children (build_graph (by_ext dept_rows) dept_rows).1 u ↔ v ∈ ids dept_rows ∧ par dept_rows v = Some u.
Proof.
  rewrite built_children. split.
  - intros (r & -> & [Hp Hr]%list_elem_of_filter)%list_elem_of_fmap.
    split; [by apply list_elem_of_fmap_2|]. by rewrite par_row.
  - intros [(r & -> & Hr)%list_elem_of_fmap Hpar].
    rewrite par_row in Hpar by done.
    apply list_elem_of_fmap_2. by apply list_elem_of_filter.
Qed.

Lemma graph_children_NoDup u : NoDup (children (build_graph (by_ext dept_rows) dept_rows).1 u).
Proof.
  rewrite built_children.
  apply (sublist_NoDup _ _ ids_NoDup), fmap_sublist, sublist_filter.
Qed.

Lemma initial_indeg_row r :
  r ∈ dept_rows →
  od_map (build_graph (by_ext dept_rows) dept_rows).2 !! external_id r = Some (if in_set_parent (by_ext dept_rows) r then 1 else 0).
Proof. intros Hr. by apply (built_indeg_NoDup (by_ext dept_rows)). Qed.

Lemma initial_forest :
  forest_ok (ids dept_rows) (par dept_rows) (od_map (build_graph (by_ext dept_rows) dept_rows).2) (od_zero_keys (build_graph (by_ext dept_rows) dept_rows).2) [].
Proof.
  destruct (built_keys (by_ext dept_rows) dept_rows) as (Hnd & Hk & Hm).
  unfold forest_ok. simpl. split_and!.
  - intros v (r & -> & Hr)%list_elem_of_fmap Hpar.
    rewrite par_row in Hpar by done.
    apply list_elem_of_filter. split.
    + rewrite initial_indeg_row by done.  by rewrite Hpar.
    + apply Hk. by apply list_elem_of_fmap_2.
  - by intros v p _ _ ?%elem_of_nil.
  - intros v p (r & -> & Hr)%list_elem_of_fmap Hpar _.
    rewrite par_row in Hpar by done. unfold od_getd.
    rewrite initial_indeg_row by done.  by rewrite Hpar.
  - intros v p Hpar [Hz Hv]%list_elem_of_filter.
    apply Hk in Hv as (r & -> & Hr)%list_elem_of_fmap.
    rewrite par_row in Hpar by done.
    rewrite initial_indeg_row in Hz by done.  by rewrite Hpar in Hz.
Qed.

Lemma kahn_order_forest order :
  kahn_order dept_rows = Some order →
  (∀ v, v ∈ ids dept_rows → par dept_rows v = None → v ∈ order)
  ∧ (∀ v p, v ∈ ids dept_rows → par dept_rows v = Some p → p ∈ order → v ∈ order)
  ∧ (∀ v p, par dept_rows v = Some p → v ∈ order → before p v order).
Proof.
  rewrite kahn_order_unfold. intros Hloop.
  eapply (kahn_loop_forest (ids dept_rows)) in Hloop
    as (m' & Hroot & Hdone & _ & Hbefore).
  - rewrite app_nil_r in *. eauto.
  - apply graph_children_in.
  - apply graph_children_par.
  - apply graph_children_NoDup.
  - apply initial_queued.
  - apply initial_forest.
Qed.
End order.

(** ** Acyclic inputs are ordered in full, cyclic ones are not *)

Lemma par_in_ids rows v p :
  par rows v = Some p → v ∈ ids rows ∧ p ∈ ids rows.
Proof.
  unfold par. destruct (by_ext rows !! v) as [r|] eqn:Hv; [|done]. simpl.
  intros [_ Hp]%in_set_parent_spec. split; [|done].
  apply by_ext_is_Some. eauto.
Qed.

Lemma not_NoDup_split (l : list string) :
  ¬ NoDup l → ∃ l1 x l2, l = l1 ++ x :: l2 ∧ x ∈ l2.
Proof.
  induction l as [|a l IH]; intros Hnd; [destruct Hnd; constructor|].
  destruct (decide (a ∈ l)) as [Ha|Ha]; [by exists [], a, l|].
  destruct IH as (l1 & x & l2 & -> & Hx).
  { intros Hl. apply Hnd. by constructor. }
  by exists (a :: l1), x, l2.
Qed.

Lemma pigeonhole (l k : list string) :
  (∀ x, x ∈ l → x ∈ k) → (length k < length l)%nat → ¬ NoDup l.
Proof.
  intros Hin Hlen Hnd.
  apply (NoDup_submseteq _ k), submseteq_length in Hnd; [lia | done].
Qed.

Section chains.
Variable dept_rows : list DeptRow.
Hypothesis ids_NoDup : NoDup (ids dept_rows).

Lemma ancestors_tc n : ∀ x y,
  y ∈ ancestors dept_rows n x → tc (parent_link dept_rows) x y.
Proof.
  induction n as [|n IH]; intros x y; simpl; [by intros ?%elem_of_nil|].
  destruct (par dept_rows x) as [p|] eqn:Hp; [|by intros ?%elem_of_nil].
  assert (parent_link dept_rows x p).
  { apply parent_link_par; [done|]. split; [|done]. by apply par_in_ids in Hp as [? _]. }
  intros [->|Hy]%elem_of_cons; [by apply tc_once|].
  eapply tc_l; [done|]. by apply IH.
Qed.

Lemma ancestors_repeat n : ∀ v l1 x l2,
  ancestors dept_rows n v = l1 ++ x :: l2 → x ∈ l2 →
  tc (parent_link dept_rows) x x.
Proof.
  induction n as [|n IH]; intros v l1 x l2; simpl.
  { by destruct l1. }
  destruct (par dept_rows v) as [p|]; [|by destruct l1].
  destruct l1 as [|a l1]; simpl; intros [= -> Hl] Hx.
  - subst l2. by eapply ancestors_tc.
  - by eapply IH.
Qed.

Lemma ancestors_unordered (U : string → Prop) n : ∀ v,
  (∀ v, U v → ∃ p, par dept_rows v = Some p ∧ U p) → U v →
  length (ancestors dept_rows n v) = n
  ∧ ∀ y, y ∈ ancestors dept_rows n v → U y.
Proof.
  induction n as [|n IH]; intros v Hup Hv; simpl.
  { split; [done | by intros y ?%elem_of_nil]. }
  destruct (Hup v Hv) as (p & -> & Hp). simpl.
  destruct (IH p Hup Hp) as [-> Hall]. split; [done|].
  by intros y [->|?]%elem_of_cons; [|apply Hall].
Qed.

Lemma kahn_order_complete order :
  acyclic dept_rows → kahn_order dept_rows = Some order →
  ∀ v, v ∈ ids dept_rows → v ∈ order.
Proof.
  intros Hacyclic (Hroot & Hdone & _)%kahn_order_forest v Hv; [|done].
  destruct (decide (v ∈ order)) as [|Hout]; [done|]. exfalso.
  set (U := λ x, x ∈ ids dept_rows ∧ x ∉ order).
  assert (Hup : ∀ x, U x → ∃ p, par dept_rows x = Some p ∧ U p).
  { intros x [Hx Hxo]. destruct (par dept_rows x) as [p|] eqn:Hp.
    - exists p. split; [done|]. split; [by apply par_in_ids in Hp as [_ ?]|].
      intros Hpo. by apply Hxo, (Hdone x p).
    - by destruct Hxo; apply Hroot. }
  destruct (ancestors_unordered U (S (length (ids dept_rows))) v Hup)
    as [Hlen Hall]; [done|].
  destruct (not_NoDup_split (ancestors dept_rows (S (length (ids dept_rows))) v))
    as (l1 & x & l2 & Hsplit & Hx).
  { apply (pigeonhole _ (ids dept_rows)); [|lia]. intros y Hy. by apply Hall. }
  apply Hacyclic. exists x. by eapply ancestors_repeat.
Qed.

Lemma ancestor_before order x y :
  kahn_order dept_rows = Some order → (∀ v, v ∈ ids dept_rows → v ∈ order) →
  tc (parent_link dept_rows) x y → before y x order.
Proof.
  intros Hk Hall.
  destruct (kahn_order_NoDup _ _ Hk) as [Hnd _].
  destruct (kahn_order_forest _ ids_NoDup _ Hk) as (_ & _ & Hbefore).
  assert (Hlink : ∀ a b, parent_link dept_rows a b → before b a order).
  { intros a b [Ha Hpar]%parent_link_par; [|done]. apply Hbefore; [done|]. by apply Hall. }
  induction 1 as [a b Hab | a b c Hab _ IH]; [by apply Hlink|].
  eapply before_trans; [done | apply IH | by apply Hlink].
Qed.
End chains.

Lemma kahn_order_cycle rows order :
  has_cycle rows → kahn_order rows = Some order → length order ≠ length rows.
Proof.
  intros [x Hx] Hk Hlen.
  pose proof (kahn_order_full _ _ Hk Hlen) as Hperm.
  destruct (kahn_order_NoDup _ _ Hk) as [Hnd _].
  assert (Hids : NoDup (ids rows)) by by rewrite <- Hperm.
  apply (before_irrefl order x Hnd).
  apply (ancestor_before rows Hids); [done| |done].
  intros v Hv. by rewrite Hperm.
Qed.

Lemma kahn_order_acyclic rows :
  NoDup (ids rows) → acyclic rows →
  ∃ order, kahn_order rows = Some order
    ∧ order ≡ₚ ids rows
    ∧ ∀ r p, r ∈ rows → pe r = Some p → p ∈ ids rows →
        before p (external_id r) order.
Proof.
  intros Hids Hacyclic.
  destruct (kahn_order_total rows) as [order Hk]. exists order.
  destruct (kahn_order_NoDup _ _ Hk) as [Hnd Hsub].
  pose proof (kahn_order_complete rows Hids order Hacyclic Hk) as Hall.
  split; [done|]. split.
  - apply NoDup_Permutation; [done..|]. naive_solver.
  - intros r p Hr Hpe Hp.
    apply (ancestor_before rows Hids); [done..|].
    apply tc_once. by exists r.
Qed.

(** The example of the specification, and a cycle of two. *)
Example kahn_order_chain : kahn_order rows_chain = Some ["A"; "B"; "C"].
Proof. vm_compute. reflexivity. Qed.

Example kahn_order_loop : kahn_order rows_loop = Some [].
Proof. vm_compute. reflexivity. Qed.

(** Keys of equal in-degree leave in the order of the input. *)
Example kahn_order_siblings :
  kahn_order [mkrow "B" "b" (Some "R"); mkrow "R" "r" None; mkrow "A" "a" (Some "R");
              mkrow "Q" "q" None]
  = Some ["R"; "Q"; "B"; "A"].
Proof. vm_compute. reflexivity. Qed.

(** ** The retry wrapper *)

Lemma backoff_loop_exhausted {A} (fn : M A) base i w :
  backoff_loop fn base 0 i w = (Raise (RuntimeError "Max retries exceeded"), w).
Proof. done. Qed.

Lemma backoff_loop_return {A} (fn : M A) base n i w a w' :
  fn w = (Return a, w') → backoff_loop fn base (S n) i w = (Return a, w').
Proof. intros Hfn. simpl. unfold except_HTTPError. by rewrite Hfn. Qed.

Lemma backoff_loop_transient {A} (fn : M A) base n i w r w' :
  fn w = (Raise (HTTPError (Some r)), w') → transient (status_code r) = true →
  backoff_loop fn base (S n) i w
  = backoff_loop fn base n (S i) (slept (backoff_delay base i) w').
Proof.
  intros Hfn Ht. simpl. unfold except_HTTPError. rewrite Hfn, Ht. done.
Qed.

Lemma backoff_loop_fatal {A} (fn : M A) base n i w r w' :
  fn w = (Raise (HTTPError (Some r)), w') → transient (status_code r) = false →
  backoff_loop fn base (S n) i w = (Raise (HTTPError (Some r)), w').
Proof.
  intros Hfn Ht. simpl. unfold except_HTTPError. rewrite Hfn, Ht. done.
Qed.

Lemma backoff_loop_other {A} (fn : M A) base n i w e w' :
  fn w = (Raise e, w') → (∀ r, e ≠ HTTPError r) →
  backoff_loop fn base (S n) i w = (Raise e, w').
Proof.
  intros Hfn He. simpl. unfold except_HTTPError. rewrite Hfn.
  destruct e; try done. by destruct (He response).
Qed.

(** An operation that raises the [HTTPError] of a transient status twice
    and then returns: two sleeps of [base * 2^0] and [base * 2^1]. *)
Lemma backoff_retry_third_attempt {A} (fn : M A) base n w0 w1 w2 w3 r1 r2 a :
  transient (status_code r1) = true → transient (status_code r2) = true →
  fn w0 = (Raise (HTTPError (Some r1)), w1) →
  fn (slept (backoff_delay base 0) w1) = (Raise (HTTPError (Some r2)), w2) →
  fn (slept (backoff_delay base 1) w2) = (Return a, w3) →
  backoff_retry fn (S (S (S n))) base w0 = (Return a, w3).
Proof.
  intros Ht1 Ht2 H1 H2 H3. unfold backoff_retry.
  rewrite (backoff_loop_transient _ _ _ _ _ _ _ H1 Ht1).
  rewrite (backoff_loop_transient _ _ _ _ _ _ _ H2 Ht2).
  by apply backoff_loop_return.
Qed.

(** An operation that raises the [HTTPError] of a transient status every
    time, whatever the world: the wrapper gives up after [n] rounds. *)
Lemma backoff_loop_always_transient {A} (fn : M A) base r n : ∀ i w,
  transient (status_code r) = true →
  (∀ w, fn w = (Raise (HTTPError (Some r)), w)) →
  (backoff_loop fn base n i w).1 = Raise (RuntimeError "Max retries exceeded").
Proof.
  induction n as [|n IH]; intros i w Ht Hfn; [done|].
  rewrite (backoff_loop_transient _ _ _ _ _ _ _ (Hfn w) Ht). by apply IH.
Qed.

(** [S.get], [S.patch] and [S.post] never raise [HTTPError], so a wrapped
    request is sent once, whatever its status. *)
Lemma backoff_loop_send rq base n i w :
  backoff_loop (send rq) base (S n) i w = send rq w.
Proof.
  simpl. unfold except_HTTPError, send.
  by destruct (service w) as [|[r|] rest].
Qed.

Lemma backoff_retry_send rq w : backoff_retry_default (send rq) w = send rq w.
Proof. apply backoff_loop_send. Qed.

Lemma send_Answer rq w r rest :
  service w = Answer r :: rest → send rq w = (Return r, sent rq rest w).
Proof. intros H. unfold send. by rewrite H. Qed.

Lemma request_Answer rq w r rest :
  service w = Answer r :: rest →
  backoff_retry_default (send rq) w = (Return r, sent rq rest w).
Proof. intros. rewrite backoff_retry_send. by apply send_Answer. Qed.

Lemma raise_for_status_error r w :
  400 ≤ status_code r < 600 → raise_for_status r w = (Raise (HTTPError (Some r)), w).
Proof. intros. unfold raise_for_status. by rewrite decide_True. Qed.

Lemma raise_for_status_ok r w :
  ¬ (400 ≤ status_code r < 600) → raise_for_status r w = (Return tt, w).
Proof. intros. unfold raise_for_status. by rewrite decide_False. Qed.


(** The wrapper around an operation that does raise on an error status:
    two sleeps, of one and of two seconds, then the third answer. *)
Example backoff_retry_raising_operation :
  backoff_retry_default
    (let* r := send (GET Departments) in raise_for_status r ;;; ret r)
    (world [] [reply 503 None; reply 503 None; reply 200 None])
  = (Return {| status_code := 200; body := None |},
     {| DEPT_CACHE := []; service := [];
        calls := [GET Departments; GET Departments; GET Departments];
        sleeps := [backoff_delay 1 0; backoff_delay 1 1] |}).
Proof. vm_compute. reflexivity. Qed.

(** A listing of two pages. *)
Example list_all_departments_two_pages :
  list_all_departments 5
    (world []
       [reply 200 (Some {| Json.id := None; Json.externalId := None; Json.name := None;
                           Json.departments := Some [remote "1" (Some "A") "a"];
                           Json.pages := Some 2 |});
        reply 200 (Some {| Json.id := None; Json.externalId := None; Json.name := None;
                           Json.departments := Some [remote "2" None "b"];
                           Json.pages := Some 2 |})])
  = (Return [remote "1" (Some "A") "a"; remote "2" None "b"],
     {| DEPT_CACHE := []; service := [];
        calls := [GET (DepartmentsPage 1 100); GET (DepartmentsPage 2 100)];
        sleeps := [] |}).
Proof. vm_compute. reflexivity. Qed.

(** ** Upsert: conflict on create *)

Lemma item_id_outcome d w : item_id d w = (id_outcome d, w).
Proof. unfold item_id, id_outcome. by destruct (Dept.id d). Qed.

(** When the refresh after a 409 fails, its error is the result. *)
Lemma create_conflict_refresh_fails fuel nm ext parent lbl desc w r rest e w2 :
  service w = Answer r :: rest →
  status_code r = 409 →
  list_all_departments fuel
    (sent (POST Departments (DeptData (create_payload nm ext parent lbl desc))) rest w)
  = (Raise e, w2) →
  ensure_department_create fuel nm ext parent lbl desc w = (Raise e, w2).
Proof.
  intros Hsvc H409 Hlist. unfold ensure_department_create, bind at 1.
  rewrite (request_Answer _ _ _ _ Hsvc).
  rewrite decide_True by done.
  unfold refresh_dept_cache, bind. by rewrite Hlist.
Qed.

(** C6.  The create call is answered with 409 and the refresh that follows
    returns the listing [c].  Then the cache is [c], and the result is the id
    of the entry of [c] with the same external id when there is one, and the
    [HTTPError] of the 409 response when there is none. *)
Theorem create_conflict_refreshes_then_rechecks fuel nm ext parent lbl desc w r rest c w2 :
  service w = Answer r :: rest →
  status_code r = 409 →
  list_all_departments fuel
    (sent (POST Departments (DeptData (create_payload nm ext parent lbl desc))) rest w)
  = (Return c, w2) →
  ensure_department_create fuel nm ext parent lbl desc w
  = match find_department_by_external_id c ext with
    | Some d => (id_outcome d, with_cache c w2)
    | None => (Raise (HTTPError (Some r)), with_cache c w2)
    end.
Proof.
  intros Hsvc H409 Hlist. unfold ensure_department_create, bind at 1.
  rewrite (request_Answer _ _ _ _ Hsvc).
  rewrite decide_True by done.
  unfold refresh_dept_cache, bind. rewrite Hlist. simpl.
  destruct (find_department_by_external_id c ext) as [d|].
  - rewrite item_id_outcome. unfold id_outcome. by destruct (Dept.id d).
  - rewrite raise_for_status_error by lia. done.
Qed.

(** ** Users *)

Lemma create_user_sends u ext_to_id dept_id w :
  ext_to_id !! UserRow.dept_external_id u = Some dept_id →
  calls (create_user u ext_to_id w).2
  = calls w ++ [POST Users (UserData (user_body u dept_id))].
Proof.
  intros Hd. unfold create_user. rewrite Hd. unfold bind at 1.
  rewrite backoff_retry_send. unfold send.
  destruct (service w) as [|[r|] rest]; try done.
  case_decide; [done|]. unfold bind, raise_for_status, json.
  case_decide; [done|]. simpl. by destruct (body r).
Qed.

Lemma create_user_raises u ext_to_id w e :
  (create_user u ext_to_id w).1 = Raise e →
  (∃ r, e = HTTPError r) ∨ (∃ k, e = KeyError k) ∨ e = JSONDecodeError
  ∨ e = ConnectionError.
Proof.
  unfold create_user. destruct (ext_to_id !! UserRow.dept_external_id u).
  2:{ simpl. intros [= <-]. eauto. }
  unfold bind at 1. rewrite backoff_retry_send. unfold send.
  destruct (service w) as [|[r|] rest]; simpl; try (intros [= <-]; eauto 6).
  case_decide; [done|]. unfold bind, raise_for_status, json.
  case_decide; simpl; [intros [= <-]; eauto|].
  destruct (body r); simpl; [done|]. intros [= <-]. eauto.
Qed.

Lemma create_user_answered u ext_to_id dept_id w r rest :
  ext_to_id !! UserRow.dept_external_id u = Some dept_id →
  service w = Answer r :: rest →
  create_user u ext_to_id w
  = (if decide (status_code r = 409) then ret (user_exists u)
     else raise_for_status r ;;;
          let* j := json r in
          ret {| UserResult.status := "created";
                 UserResult.nickname := UserRow.nickname u;
                 UserResult.id := Json.id j |})
      (sent (POST Users (UserData (user_body u dept_id))) rest w).
Proof.
  intros Hd Hsvc. unfold create_user. rewrite Hd. unfold bind at 1.
  by rewrite (request_Answer _ _ _ _ Hsvc).
Qed.

(** C8.  A user creation answered with 409 gives the result record with
    status "exists" and the loop goes on with the next rows; answered with
    another error status that is not transient, the loop stops with the
    [HTTPError] of that response and sends nothing more. *)
Theorem user_conflict_is_exists_and_loop_goes_on
    u ext_to_id dept_id us results w r rest :
  ext_to_id !! UserRow.dept_external_id u = Some dept_id →
  service w = Answer r :: rest →
  (status_code r = 409 →
     create_user u ext_to_id w
     = (Return (user_exists u),
        sent (POST Users (UserData (user_body u dept_id))) rest w)
     ∧ create_users (u :: us) ext_to_id results w
       = create_users us ext_to_id (results ++ [user_exists u])
           (slept (1 # 2) (sent (POST Users (UserData (user_body u dept_id))) rest w)))
  ∧ (400 ≤ status_code r < 600 → status_code r ≠ 409 →
     transient (status_code r) = false →
     create_users (u :: us) ext_to_id results w
     = (Raise (HTTPError (Some r)),
        sent (POST Users (UserData (user_body u dept_id))) rest w)).
Proof.
  intros Hd Hsvc.
  pose proof (create_user_answered u ext_to_id dept_id w r rest Hd Hsvc) as Hpost.
  split.
  - intros H409. rewrite decide_True in Hpost by done.
    split; [done|]. simpl. rewrite decide_False by congruence.
    unfold bind at 1. by rewrite Hpost.
  - intros Herr Hne _. rewrite decide_False in Hpost by done.
    unfold bind at 1 in Hpost. rewrite raise_for_status_error in Hpost by done.
    simpl. rewrite decide_False by congruence.
    unfold bind at 1. by rewrite Hpost.
Qed.

(** C10.  The body built for a user: language "ru" and timezone
    "Europe/Moscow" when the row has no such field, the empty string for a
    missing middle name, position, external id and password, and
    [passwordChangeRequired] true exactly when the lowercased string of the
    field is "true", and true when the field is missing.  This is the body
    [create_user] posts. *)
Theorem user_body_defaults u dept_id :
  (UserRow.language u = None → UserBody.language (user_body u dept_id) = Some "ru")
  ∧ (UserRow.timezone u = None
     → UserBody.timezone (user_body u dept_id) = Some "Europe/Moscow")
  ∧ (UserRow.middle u = None → UserBody.middle (user_body u dept_id) = Some "")
  ∧ (UserRow.position u = None → UserBody.position (user_body u dept_id) = Some "")
  ∧ (UserRow.externalId u = None → UserBody.externalId (user_body u dept_id) = Some "")
  ∧ (UserRow.password u = None → UserBody.password (user_body u dept_id) = Some "")
  ∧ (∀ v, UserRow.passwordChangeRequired u = Some v →
       (UserBody.passwordChangeRequired (user_body u dept_id) = true
        ↔ lower (py_str v) = "true"))
  ∧ (UserRow.passwordChangeRequired u = None
     → UserBody.passwordChangeRequired (user_body u dept_id) = true)
  ∧ (∀ ext_to_id w, ext_to_id !! UserRow.dept_external_id u = Some dept_id →
       calls (create_user u ext_to_id w).2
       = calls w ++ [POST Users (UserData (user_body u dept_id))]).
Proof.
  unfold user_body; simpl. split_and!; try (by intros ->).
  - intros v ->. simpl. apply bool_decide_eq_true.
  - intros ext_to_id w. apply create_user_sends.
Qed.

(** ** The retry wrapper as the client uses it *)

(** C3.  The service answers the first two requests with 503 and would
    answer the third with 200.  The listing fails with the [HTTPError] of the
    first 503 after one request and no sleep, and so does the creation of a
    user: the wrapped [S.get] and [S.post] return the response instead of
    raising, so [backoff_retry] never sees the status. *)
Theorem transient_status_is_not_retried :
  list_all_departments 5
    (world [] [reply 503 None; reply 503 None; reply 200 (Some (json_listing []))])
  = (Raise (HTTPError (Some {| status_code := 503; body := None |})),
     {| DEPT_CACHE := [];
        service := [reply 503 None; reply 200 (Some (json_listing []))];
        calls := [GET (DepartmentsPage 1 100)];
        sleeps := [] |})
  ∧ (create_user (user "ivan" "D1") {["D1" := "7"]}
       (world [] [reply 503 None; reply 503 None; reply 200 (Some (json_department "42"))])).1
    = Raise (HTTPError (Some {| status_code := 503; body := None |}))
  ∧ sleeps (create_user (user "ivan" "D1") {["D1" := "7"]}
       (world [] [reply 503 None; reply 503 None; reply 200 (Some (json_department "42"))])).2
    = [].
Proof. split_and!; vm_compute; reflexivity. Qed.

(** ** Departments in resolution order *)

(** C1.  For an input whose keys are distinct and whose parent links form no
    cycle, the resolution finds an order that holds every key of the input
    exactly once and in which the parent of a row, when it is a key of the
    input, comes before the row; [build_hierarchy_and_create] then raises no
    cycle error and walks that order. *)
Theorem acyclic_input_is_ordered_parents_first fuel rows :
  NoDup (ids rows) → acyclic rows →
  ∃ order, kahn_order rows = Some order
    ∧ order ≡ₚ ids rows
    ∧ (∀ r p, r ∈ rows → pe r = Some p → p ∈ ids rows →
         before p (external_id r) order)
    ∧ build_hierarchy_and_create fuel rows
      = create_departments fuel (by_ext rows) order ∅.
Proof.
  intros Hids Hacyclic.
  destruct (kahn_order_acyclic rows Hids Hacyclic) as (order & Hk & Hperm & Hbefore).
  exists order. split_and!; [done..|].
  unfold build_hierarchy_and_create. rewrite Hk.
  rewrite decide_False; [done|].
  rewrite Hperm. unfold ids. rewrite length_fmap. auto.
Qed.

(** C2.  For an input with a cycle of parent links,
    [build_hierarchy_and_create] raises the [ValueError] of the cycle check
    and leaves the world as it was: no request has been sent and the cache
    is untouched. *)
Theorem cyclic_input_fails_before_any_call fuel rows w :
  has_cycle rows →
  build_hierarchy_and_create fuel rows w = (Raise (ValueError cycle_message), w).
Proof.
  intros Hcycle. unfold build_hierarchy_and_create.
  destruct (kahn_order_total rows) as [order Hk]. rewrite Hk.
  rewrite decide_True; [done|]. by apply kahn_order_cycle.
Qed.

Lemma ensure_department_cached fuel nm ext parent lbl desc w d :
  ext ≠ "" → find_department_by_external_id (DEPT_CACHE w) ext = Some d →
  ensure_department fuel nm ext parent lbl desc w = (id_outcome d, w).
Proof.
  intros Hext Hfind. unfold ensure_department, bind, get_cache.
  rewrite decide_False by done. rewrite Hfind. apply item_id_outcome.
Qed.

Lemma create_departments_dom fuel B order : ∀ m w m' w',
  create_departments fuel B order m w = (Return m', w') →
  dom m' = dom m ∪ list_to_set order.
Proof.
  induction order as [|ext order IH]; intros m w m' w'; simpl.
  { intros [= <- <-]. set_solver. }
  destruct (B !! ext) as [r|]; [|done]. unfold bind.
  destruct (resolve_parent B m ext r w) as [[pid| |] w1]; [|done..].
  destruct (ensure_department _ _ _ _ _ _ w1) as [[i| |] w2]; [|done..].
  intros ->%IH. rewrite dom_insert_L. set_solver.
Qed.

Lemma before_cons_inv p x v l : before p x (v :: l) → p = v ∨ before p x l.
Proof.
  intros (i & j & Hi & Hj & Hij). destruct i as [|i]; [left; naive_solver|].
  destruct j as [|j]; [lia|]. right. exists i, j. split_and!; [done..|lia].
Qed.

Lemma before_head p v l : NoDup (v :: l) → ¬ before p v (v :: l).
Proof.
  intros Hnd (i & j & Hi & Hj & Hij).
  assert (j = 0%nat) by (eapply NoDup_lookup; eauto). lia.
Qed.

Section cached.
Variable fuel : nat.
Variable rows : list DeptRow.
Variable w : World.
Hypothesis ids_NoDup : NoDup (ids rows).
Hypothesis all_cached : ∀ r, r ∈ rows →
  external_id r ≠ "" ∧ is_Some (cached_id (DEPT_CACHE w) (external_id r)).

Lemma create_departments_cached order : ∀ m,
  NoDup order → (∀ v, v ∈ order → v ∈ ids rows) →
  (∀ v p, v ∈ order → par rows v = Some p → is_Some (m !! p) ∨ before p v order) →
  ∃ m', create_departments fuel (by_ext rows) order m w = (Return m', w)
    ∧ ∀ k, m' !! k = if decide (k ∈ order) then cached_id (DEPT_CACHE w) k else m !! k.
Proof.
  induction order as [|v order IH]; intros m Hnd Hin Hpar; cbn [create_departments].
  { exists m. split; [done|]. intros k. by rewrite decide_False by apply not_elem_of_nil. }
  assert (Hv0 : v ∈ ids rows) by set_solver.
  apply list_elem_of_fmap in Hv0 as (r & -> & Hr).
  rewrite by_ext_lookup_NoDup by done.
  destruct (all_cached r Hr) as [Hne [i Hi]].
  unfold cached_id in Hi.
  destruct (find_department_by_external_id (DEPT_CACHE w) (external_id r))
    as [d|] eqn:Hfind; [simpl in Hi|done].
  assert (Hres : ∃ pid, resolve_parent (by_ext rows) m (external_id r) r w = (Return pid, w)).
  { unfold resolve_parent. destruct (pe r) as [p|] eqn:Hpe; [|by eexists].
    case_decide as Hbad; [|by eexists]. exfalso. destruct Hbad as [Hnone Hp].
    destruct (Hpar (external_id r) p) as [Hsome | Hb].
    - set_solver.
    - rewrite par_row by done. apply in_set_parent_spec. split; [done|].
      by apply by_ext_is_Some.
    - rewrite Hnone in Hsome. by destruct Hsome.
    - by apply before_head in Hb. }
  destruct Hres as [pid Hres]. unfold bind. rewrite Hres.
  rewrite (ensure_department_cached _ _ _ _ _ _ _ d) by done.
  unfold id_outcome. rewrite Hi.
  apply NoDup_cons in Hnd as [Hv Hnd].
  destruct (IH (<[external_id r := i]> m)) as (m' & Hrun & Hm'); [done|set_solver|..].
  - intros v' p Hv' Hp. destruct (Hpar v' p) as [Hsome | Hb]; [set_solver|done|..].
    + left. rewrite lookup_insert_is_Some. destruct (decide (external_id r = p)); auto.
    + apply before_cons_inv in Hb as [-> | Hb]; [|by right].
      left. rewrite lookup_insert_eq. eauto.
  - exists m'. split; [done|]. intros k. rewrite Hm'.
    destruct (decide (k = external_id r)) as [->|Hk].
    + rewrite decide_False by done. rewrite decide_True by set_solver.
      rewrite lookup_insert_eq. unfold cached_id. by rewrite Hfind.
    + rewrite lookup_insert_ne by done.
      destruct (decide (k ∈ order)).
      * by rewrite decide_True by set_solver.
      * by rewrite decide_False by set_solver.
Qed.
End cached.

(** C4.  A department whose non-empty external id is in the cache: the
    upsert returns the id of that cache entry and leaves the world as it was
    (no request, no change of the cache).  Hence a run of the department step
    on an acyclic input, all of whose departments are in the cache, returns
    the mapping from each external id to the cached id and leaves the world
    as it was. *)
Theorem cached_department_is_returned_untouched fuel :
  (∀ nm ext parent lbl desc w d,
     ext ≠ "" → find_department_by_external_id (DEPT_CACHE w) ext = Some d →
     ensure_department fuel nm ext parent lbl desc w = (id_outcome d, w))
  ∧ (∀ rows w,
       NoDup (ids rows) → acyclic rows →
       (∀ r, r ∈ rows →
          external_id r ≠ "" ∧ is_Some (cached_id (DEPT_CACHE w) (external_id r))) →
       ∃ m, build_hierarchy_and_create fuel rows w = (Return m, w)
         ∧ ∀ r, r ∈ rows → m !! external_id r = cached_id (DEPT_CACHE w) (external_id r)).
Proof.
  split; [apply ensure_department_cached|].
  intros rows w Hids Hacyclic Hcached.
  destruct (kahn_order_acyclic rows Hids Hacyclic)
    as (order & Hk & Hperm & Hbefore).
  destruct (create_departments_cached fuel rows w Hids Hcached order ∅)
    as (m & Hrun & Hm).
  - by rewrite Hperm.
  - intros v Hv. by rewrite <- Hperm.
  - intros v p Hv Hp. right.
    assert (Hv' : v ∈ ids rows) by by rewrite <- Hperm.
    apply list_elem_of_fmap in Hv' as (r & -> & Hr).
    rewrite par_row in Hp by done. apply in_set_parent_spec in Hp as [? ?].
    by apply Hbefore.
  - exists m. split.
    + unfold build_hierarchy_and_create. rewrite Hk.
      rewrite decide_False; [done|].
      rewrite Hperm. unfold ids. rewrite length_fmap. auto.
    + intros r Hr. rewrite Hm. rewrite decide_True; [done|].
      rewrite Hperm. by apply list_elem_of_fmap_2.
Qed.

(** ** The mapping handed to the user step *)

(** C9.  When [build_hierarchy_and_create] returns a mapping, its keys are
    the external ids of the input, one entry per row.  So the user loop
    raises "Department not found" for a user exactly when the user's
    department is not an external id of the input, and it does so before
    sending anything for that user. *)
Theorem mapping_holds_exactly_the_input_departments fuel rows w m w' :
  build_hierarchy_and_create fuel rows w = (Return m, w') →
  NoDup (ids rows)
  ∧ dom m = list_to_set (ids rows)
  ∧ size m = length rows
  ∧ ∀ u us results w2,
      (UserRow.dept_external_id u ∉ ids rows →
         create_users (u :: us) m results w2 = (Raise (department_not_found u), w2))
      ∧ (UserRow.dept_external_id u ∈ ids rows →
         ∃ dept_id,
           m !! UserRow.dept_external_id u = Some dept_id
           ∧ calls (create_user u m w2).2
             = calls w2 ++ [POST Users (UserData (user_body u dept_id))]
           ∧ ∀ v, (create_user u m w2).1 ≠ Raise (department_not_found v)).
Proof.
  unfold build_hierarchy_and_create.
  destruct (kahn_order rows) as [order|] eqn:Hk; [|done].
  case_decide as Hlen; [done|].
  intros Hdom%create_departments_dom.
  pose proof (kahn_order_full _ _ Hk Hlen) as Hperm.
  destruct (kahn_order_NoDup _ _ Hk) as [Hnd _].
  assert (Hids : NoDup (ids rows)) by by rewrite <- Hperm.
  assert (Hdom' : dom m = list_to_set (ids rows)).
  { rewrite Hdom. apply set_eq. intros k. rewrite elem_of_union, !elem_of_list_to_set, Hperm.
    set_solver. }
  split_and!; [done..| |].
  - rewrite <- size_dom, Hdom', size_list_to_set by done.
    unfold ids. by rewrite length_fmap.
  - intros u us results w2. split.
    + intros Hout. simpl. rewrite decide_True; [done|].
      apply not_elem_of_dom. rewrite Hdom'. by rewrite elem_of_list_to_set.
    + intros Hin.
      assert (is_Some (m !! UserRow.dept_external_id u)) as [dept_id Hd].
      { apply elem_of_dom. rewrite Hdom'. by rewrite elem_of_list_to_set. }
      exists dept_id. split_and!; [done|by apply create_user_sends|].
      intros v Hraise. apply create_user_raises in Hraise.
      unfold department_not_found in Hraise. naive_solver.
Qed.

(** ** Upsert: adoption of a department without external id *)

Lemma replace_by_id_spec cache target updated :
  Forall (λ e, is_Some (Dept.id e)) cache →
  (∃ d, d ∈ cache ∧ Dept.id d = Some target) →
  ∃ l1 e l2,
    cache = l1 ++ e :: l2 ∧ Dept.id e = Some target
    ∧ Forall (λ x, Dept.id x ≠ Some target) l1
    ∧ replace_by_id cache target updated = Some (l1 ++ updated :: l2).
Proof.
  induction cache as [|a cache IH]; intros Hids (d & Hd & Hid).
  { by apply elem_of_nil in Hd. }
  apply Forall_cons in Hids as [[i Hi] Hids]. simpl. rewrite Hi.
  case_decide as Hit.
  - subst i. by exists [], a, cache.
  - destruct IH as (l1 & e & l2 & -> & He & Hl1 & ->); [done|..].
    + exists d. split; [|done]. apply elem_of_cons in Hd as [->|]; [congruence|done].
    + exists (a :: l1), e, l2. split_and!; [done..| |done].
      constructor; [congruence|done].
Qed.

Lemma find_department_by_name_In cache nm d :
  find_department_by_name cache nm = Some d → d ∈ cache ∧ Dept.name d = Some nm.
Proof.
  intros [Hin Hnm]%find_some. split; [by apply list_elem_of_In|].
  by apply bool_decide_eq_true in Hnm.
Qed.

Lemma adoption_update_accepted fuel nm ext parent lbl desc w d target r rest j :
  ext = "" ∨ find_department_by_external_id (DEPT_CACHE w) ext = None →
  find_department_by_name (DEPT_CACHE w) nm = Some d →
  or_None (Dept.externalId d) = None →
  Dept.id d = Some target →
  Forall (λ e, is_Some (Dept.id e)) (DEPT_CACHE w) →
  service w = Answer r :: rest →
  ¬ (400 ≤ status_code r < 600) →
  body r = Some j →
  ∃ l1 e l2,
    DEPT_CACHE w = l1 ++ e :: l2
    ∧ Dept.id e = Some target
    ∧ Forall (λ x, Dept.id x ≠ Some target) l1
    ∧ ensure_department fuel nm ext parent lbl desc w
      = (id_outcome {| Dept.id := Json.id j; Dept.externalId := Some ext;
                       Dept.name := Json.name j |},
         with_cache
           (l1 ++ {| Dept.id := Json.id j; Dept.externalId := Some ext;
                     Dept.name := Json.name j |} :: l2)
           (sent (PATCH (DepartmentById target)
                        (UpdateData (update_payload ext lbl desc))) rest w)).
Proof.
  intros Hext Hname Hlegacy Hid Hids Hsvc Hok Hbody.
  set (updated := {| Dept.id := Json.id j; Dept.externalId := Some ext;
                     Dept.name := Json.name j |}).
  destruct (replace_by_id_spec (DEPT_CACHE w) target updated Hids)
    as (l1 & e & l2 & Hcache & He & Hl1 & Hrep).
  { exists d. split; [|done]. by apply find_department_by_name_In in Hname as [? _]. }
  exists l1, e, l2. split_and!; [done..|].
  unfold ensure_department, bind at 1, get_cache.
  assert ((if decide (ext = "") then None
           else find_department_by_external_id (DEPT_CACHE w) ext) = None) as ->.
  { case_decide; [done|]. by destruct Hext. }
  rewrite Hname, decide_True by done.
  unfold bind at 1, except_HTTPError, bind at 1, ensure_department_adopt, bind at 1.
  rewrite item_id_outcome. unfold id_outcome at 1. rewrite Hid.
  unfold bind at 1. rewrite (request_Answer _ _ _ _ Hsvc).
  unfold bind at 1. rewrite raise_for_status_ok by done.
  unfold bind at 1, json. rewrite Hbody.
  unfold ret at 1, bind at 1, get_cache.
  change (DEPT_CACHE (sent _ rest w)) with (DEPT_CACHE w).
  fold updated. rewrite Hrep.
  unfold bind, set_cache. rewrite item_id_outcome.
  unfold id_outcome. by destruct (Dept.id updated).
Qed.

Lemma adoption_update_refused fuel nm ext parent lbl desc w d target r rest :
  ext = "" ∨ find_department_by_external_id (DEPT_CACHE w) ext = None →
  find_department_by_name (DEPT_CACHE w) nm = Some d →
  or_None (Dept.externalId d) = None →
  Dept.id d = Some target →
  service w = Answer r :: rest →
  400 ≤ status_code r < 600 →
  ensure_department fuel nm ext parent lbl desc w
  = ensure_department_create fuel nm ext parent lbl desc
      (sent (PATCH (DepartmentById target)
                   (UpdateData (update_payload ext lbl desc))) rest w).
Proof.
  intros Hext Hname Hlegacy Hid Hsvc Herr.
  unfold ensure_department, bind at 1, get_cache.
  assert ((if decide (ext = "") then None
           else find_department_by_external_id (DEPT_CACHE w) ext) = None) as ->.
  { case_decide; [done|]. by destruct Hext. }
  rewrite Hname, decide_True by done.
  unfold bind at 1, except_HTTPError, bind at 1, ensure_department_adopt, bind at 1.
  rewrite item_id_outcome. unfold id_outcome at 1. rewrite Hid.
  unfold bind at 1. rewrite (request_Answer _ _ _ _ Hsvc).
  unfold bind at 1. by rewrite raise_for_status_error.
Qed.

(** C5, amended.  The external id is empty or not in the cache, and the first
    cache entry with the department's name has no external id.  The upsert
    sends an update of that entry with the external id (and the label and
    description that are given).  When the service answers it with a status
    that is no error and a JSON object, this is the only request sent, the
    first cache entry with that id is replaced by the answer stamped with
    the external id, and the id of the answer is returned.  When the service
    answers it with an error status, the upsert goes on with the create
    call. *)
Theorem legacy_department_is_adopted fuel nm ext parent lbl desc w d target r rest :
  ext = "" ∨ find_department_by_external_id (DEPT_CACHE w) ext = None →
  find_department_by_name (DEPT_CACHE w) nm = Some d →
  or_None (Dept.externalId d) = None →
  Dept.id d = Some target →
  Forall (λ e, is_Some (Dept.id e)) (DEPT_CACHE w) →
  service w = Answer r :: rest →
  (¬ (400 ≤ status_code r < 600) → ∀ j, body r = Some j →
     ∃ l1 e l2,
       DEPT_CACHE w = l1 ++ e :: l2
       ∧ Dept.id e = Some target
       ∧ Forall (λ x, Dept.id x ≠ Some target) l1
       ∧ ensure_department fuel nm ext parent lbl desc w
         = (id_outcome {| Dept.id := Json.id j; Dept.externalId := Some ext;
                          Dept.name := Json.name j |},
            with_cache
              (l1 ++ {| Dept.id := Json.id j; Dept.externalId := Some ext;
                        Dept.name := Json.name j |} :: l2)
              (sent (PATCH (DepartmentById target)
                           (UpdateData (update_payload ext lbl desc))) rest w)))
  ∧ (400 ≤ status_code r < 600 →
       ensure_department fuel nm ext parent lbl desc w
       = ensure_department_create fuel nm ext parent lbl desc
           (sent (PATCH (DepartmentById target)
                        (UpdateData (update_payload ext lbl desc))) rest w)).
Proof.
  intros Hext Hname Hlegacy Hid Hids Hsvc. split.
  - intros Hok j Hbody. by eapply adoption_update_accepted.
  - intros Herr. by eapply adoption_update_refused.
Qed.

(** C5, counterexample.  The cache holds a department "Sales" without
    external id and the input row "Sales" has the external id "D1", absent
    from the cache; the service refuses the update with 400.  The upsert
    then creates a second department and returns its id, and the cache entry
    is not overwritten. *)
Lemma legacy_department_duplicated_when_update_is_refused :
  find_department_by_external_id [remote "7" None "Sales"] "D1" = None
  ∧ find_department_by_name [remote "7" None "Sales"] "Sales"
    = Some (remote "7" None "Sales")
  ∧ ensure_department 5 "Sales" "D1" None None None
      (world [remote "7" None "Sales"]
             [reply 400 None; reply 200 (Some (json_department "99"))])
    = (Return "99",
       {| DEPT_CACHE := [remote "7" None "Sales";
                         {| Dept.id := Some "99"; Dept.externalId := Some "D1";
                            Dept.name := None |}];
          service := [];
          calls := [PATCH (DepartmentById "7")
                          (UpdateData (update_payload "D1" None None));
                    POST Departments
                         (DeptData (create_payload "Sales" "D1" None None None))];
          sleeps := [] |}).
Proof. split_and!; vm_compute; reflexivity. Qed.

(** The name is looked up before the external id is looked at: an entry of
    the same name that has an external id hides a later one that has none. *)
Example legacy_department_hidden_by_namesake :
  ensure_department 5 "Sales" "D1" None None None
    (world [remote "3" (Some "D9") "Sales"; remote "7" None "Sales"]
           [reply 200 (Some (json_department "99"))])
  = (Return "99",
     {| DEPT_CACHE := [remote "3" (Some "D9") "Sales"; remote "7" None "Sales";
                       {| Dept.id := Some "99"; Dept.externalId := Some "D1";
                          Dept.name := None |}];
        service := [];
        calls := [POST Departments
                       (DeptData (create_payload "Sales" "D1" None None None))];
        sleeps := [] |}).
Proof. vm_compute. reflexivity. Qed.

(** ** Which requests a computation sends *)

Section issues.
Context (P : Request → Prop).

Lemma issues_ret {A} (a : A) : issues P (ret a).
Proof. intros w. exists []. by rewrite app_nil_r. Qed.

Lemma issues_raise {A} e : issues P (@raise A e).
Proof. intros w. exists []. by rewrite app_nil_r. Qed.

Lemma issues_diverge {A} : issues P (@diverge A).
Proof. intros w. exists []. by rewrite app_nil_r. Qed.

Lemma issues_get_cache : issues P get_cache.
Proof. intros w. exists []. by rewrite app_nil_r. Qed.

Lemma issues_set_cache c : issues P (set_cache c).
Proof. intros w. exists []. by rewrite app_nil_r. Qed.

Lemma issues_sleep secs : issues P (sleep secs).
Proof. intros w. exists []. by rewrite app_nil_r. Qed.

Lemma issues_item_id d : issues P (item_id d).
Proof. unfold item_id. destruct (Dept.id d); [apply issues_ret | apply issues_raise]. Qed.

Lemma issues_raise_for_status r : issues P (raise_for_status r).
Proof.
  unfold raise_for_status. case_decide; [apply issues_raise | apply issues_ret].
Qed.

Lemma issues_json r : issues P (json r).
Proof. unfold json. destruct (body r); [apply issues_ret | apply issues_raise]. Qed.

Lemma issues_send rq : P rq → issues P (send rq).
Proof.
  intros Hrq w. exists [rq]. split; [|by constructor].
  unfold send. by destruct (service w) as [|[r|] rest].
Qed.

Lemma issues_bind {A B} (m : M A) (k : A → M B) :
  issues P m → (∀ a, issues P (k a)) → issues P (bind m k).
Proof.
  intros Hm Hk w. unfold bind. destruct (Hm w) as (new1 & Hc1 & Hn1).
  destruct (m w) as [[a| |] w1]; simpl in Hc1; [|by exists new1..].
  destruct (Hk a w1) as (new2 & Hc2 & Hn2).
  exists (new1 ++ new2). rewrite Hc2, Hc1, <- app_assoc.
  split; [done|]. by apply Forall_app.
Qed.

Lemma issues_except {A} (m : M A) (h : option Response → M A) :
  issues P m → (∀ r, issues P (h r)) → issues P (except_HTTPError m h).
Proof.
  intros Hm Hh w. unfold except_HTTPError. destruct (Hm w) as (new1 & Hc1 & Hn1).
  destruct (m w) as [[a|e|] w1]; simpl in Hc1; [by exists new1| |by exists new1].
  destruct e as [r| | | | |]; try by exists new1.
  destruct (Hh r w1) as (new2 & Hc2 & Hn2).
  exists (new1 ++ new2). rewrite Hc2, Hc1, <- app_assoc.
  split; [done|]. by apply Forall_app.
Qed.

Lemma issues_backoff_loop {A} (fn : M A) base n : ∀ i,
  issues P fn → issues P (backoff_loop fn base n i).
Proof.
  induction n as [|n IH]; intros i Hfn; simpl; [apply issues_raise|].
  apply issues_except; [done|]. intros [r|]; [|apply issues_raise].
  destruct (transient (status_code r)); [|apply issues_raise].
  apply issues_bind; [apply issues_sleep|]. intros _. by apply IH.
Qed.

Lemma issues_request rq : P rq → issues P (backoff_retry_default (send rq)).
Proof. intros. by apply issues_backoff_loop, issues_send. Qed.

Lemma issues_list_pages n : ∀ page result,
  (∀ page, P (GET (DepartmentsPage page 100))) → issues P (list_pages n page result).
Proof.
  induction n as [|n IH]; intros page result HP; simpl; [apply issues_diverge|].
  apply issues_bind; [by apply issues_request|]. intros r.
  apply issues_bind; [apply issues_raise_for_status|]. intros _.
  apply issues_bind; [apply issues_json|]. intros data.
  case_decide; [apply issues_ret | by apply IH].
Qed.

Lemma issues_refresh fuel :
  (∀ page, P (GET (DepartmentsPage page 100))) → issues P (refresh_dept_cache fuel).
Proof.
  intros HP. apply issues_bind; [by apply issues_list_pages|].
  intros c. apply issues_set_cache.
Qed.
End issues.

Lemma ensure_department_issues fuel nm ext parent lbl desc :
  issues (upsert_request nm ext parent lbl desc)
         (ensure_department fuel nm ext parent lbl desc).
Proof.
  unfold ensure_department.
  apply issues_bind; [apply issues_get_cache|]. intros cache.
  destruct (if decide (ext = "") then None else _) as [d|]; [apply issues_item_id|].
  apply issues_bind.
  - destruct (find_department_by_name cache nm) as [d|]; [|apply issues_ret].
    case_decide; [|apply issues_ret].
    apply issues_except; [|intros; apply issues_ret].
    apply issues_bind; [|intros; apply issues_ret].
    unfold ensure_department_adopt.
    apply issues_bind; [apply issues_item_id|]. intros target.
    apply issues_bind; [by apply issues_request|]. intros r.
    apply issues_bind; [apply issues_raise_for_status|]. intros _.
    apply issues_bind; [apply issues_json|]. intros j.
    apply issues_bind; [apply issues_get_cache|]. intros c.
    destruct (replace_by_id _ _ _); [|apply issues_raise].
    apply issues_bind; [apply issues_set_cache|]. intros _. apply issues_item_id.
  - intros [i|]; [apply issues_ret|]. unfold ensure_department_create.
    apply issues_bind; [by apply issues_request|]. intros r.
    apply issues_bind.
    + case_decide; [|apply issues_ret].
      apply issues_bind; [by apply issues_refresh|]. intros _.
      apply issues_bind; [apply issues_get_cache|]. intros c.
      destruct (find_department_by_external_id c ext).
      * apply issues_bind; [apply issues_item_id|]. intros; apply issues_ret.
      * apply issues_bind; [apply issues_raise_for_status|]. intros; apply issues_ret.
    + intros [i|]; [apply issues_ret|].
      apply issues_bind; [apply issues_raise_for_status|]. intros _.
      apply issues_bind; [apply issues_json|]. intros j.
      apply issues_bind; [apply issues_get_cache|]. intros c.
      apply issues_bind; [apply issues_set_cache|]. intros _. apply issues_item_id.
Qed.

Lemma issues_mono {A} (P Q : Request → Prop) (m : M A) :
  (∀ rq, P rq → Q rq) → issues P m → issues Q m.
Proof.
  intros HPQ Hm w. destruct (Hm w) as (new & Hc & Hn). exists new.
  split; [done|]. by eapply Forall_impl.
Qed.

Lemma bind_ret {A B} (a : A) (k : A → M B) : bind (ret a) k = k a.
Proof. done. Qed.

Lemma bind_raise {A B} e (k : A → M B) : bind (raise e) k = raise e.
Proof. done. Qed.

Lemma resolve_parent_result B m ext r :
  (∃ e, resolve_parent B m ext r = raise e)
  ∨ resolve_parent B m ext r = ret (pe r ≫= λ p, m !! p).
Proof.
  unfold resolve_parent. destruct (pe r) as [p|]; [|by right].
  case_decide; [left; eauto | by right].
Qed.

(** ** A parent outside the input *)

Section outside_parent.
Variable fuel : nat.
Variable rows : list DeptRow.
Variable r0 : DeptRow.
Variable p0 : string.
Hypothesis ids_NoDup : NoDup (ids rows).
Hypothesis r0_in : r0 ∈ rows.
Hypothesis r0_parent : pe r0 = Some p0.
Hypothesis p0_outside : p0 ∉ ids rows.

Lemma outside_parent_indeg : initial_indeg rows (external_id r0) = Some 0.
Proof.
  unfold initial_indeg. rewrite built_indeg_NoDup by done.
  destruct (in_set_parent (by_ext rows) r0) as [p|] eqn:Hp; [|done].
  apply in_set_parent_spec in Hp as [Hp Hin]. congruence.
Qed.

Lemma create_departments_outside_parent order : ∀ m,
  (∀ k, is_Some (m !! k) → k ∈ ids rows) →
  issues (creates_without_parent (external_id r0))
         (create_departments fuel (by_ext rows) order m).
Proof.
  induction order as [|ext order IH]; intros m Hm; simpl; [apply issues_ret|].
  destruct (by_ext rows !! ext) as [r|] eqn:Hr; [|apply issues_raise].
  apply by_ext_lookup_Some in Hr as [Hr <-].
  destruct (resolve_parent_result (by_ext rows) m (external_id r) r) as [[e ->] | ->].
  { rewrite bind_raise. apply issues_raise. }
  rewrite bind_ret. apply issues_bind.
  - eapply issues_mono; [|apply ensure_department_issues].
    intros rq Hrq payload -> Hext. simpl in Hrq. subst payload. simpl in *.
    assert (r = r0) as ->.
    { pose proof (by_ext_lookup_NoDup rows r ids_NoDup Hr) as H1.
      pose proof (by_ext_lookup_NoDup rows r0 ids_NoDup r0_in) as H2.
      rewrite Hext in H1. congruence. }
    rewrite r0_parent. simpl.
    assert (m !! p0 = None) as ->; [|done].
    apply eq_None_not_Some. by intros ?%Hm.
  - intros i. apply IH. intros k [<-|[_ Hk]]%lookup_insert_is_Some; [|by apply Hm].
    by apply list_elem_of_fmap_2.
Qed.
End outside_parent.

Lemma build_hierarchy_issues fuel rows r p :
  NoDup (ids rows) → r ∈ rows → pe r = Some p → p ∉ ids rows →
  issues (creates_without_parent (external_id r)) (build_hierarchy_and_create fuel rows).
Proof.
  intros Hids Hr Hpe Hp. unfold build_hierarchy_and_create.
  destruct (kahn_order rows) as [order|]; [|apply issues_diverge].
  case_decide; [apply issues_raise|].
  apply (create_departments_outside_parent fuel rows r p); try done.
  intros k. rewrite lookup_empty. by intros [? ?].
Qed.

(** C7, amended.  A row whose parent is not a key of the input gets
    in-degree 0, and whatever the cache holds every create request sent for
    it leaves the parent id out. *)
Theorem outside_parent_is_root_and_left_out fuel rows r p :
  NoDup (ids rows) → r ∈ rows → pe r = Some p → p ∉ ids rows →
  initial_indeg rows (external_id r) = Some 0
  ∧ ∀ w, ∃ new,
      calls (build_hierarchy_and_create fuel rows w).2 = calls w ++ new
      ∧ ∀ payload, POST Departments (DeptData payload) ∈ new →
          DeptPayload.externalId payload = external_id r →
          DeptPayload.parentId payload = None.
Proof.
  intros Hids Hr Hpe Hp. split; [by eapply outside_parent_indeg|].
  intros w. destruct (build_hierarchy_issues fuel rows r p Hids Hr Hpe Hp w)
    as (new & Hcalls & Hnew).
  exists new. split; [done|]. intros payload Hin.
  rewrite Forall_forall in Hnew. by apply (Hnew _ Hin).
Qed.

(** C7, counterexample.  The row "C" names the parent "P", which is not in
    the input but is in the cache under the id "10".  The create request for
    "C" carries no parent id: the cache has not been asked. *)
Lemma outside_parent_is_not_looked_up :
  pe (mkrow "C" "c" (Some "P")) = Some "P"
  ∧ cached_id [remote "10" (Some "P") "p"] "P" = Some "10"
  ∧ build_hierarchy_and_create 5 [mkrow "C" "c" (Some "P")]
      (world [remote "10" (Some "P") "p"] [reply 200 (Some (json_department "11"))])
    = (Return {["C" := "11"]},
       {| DEPT_CACHE := [remote "10" (Some "P") "p";
                         {| Dept.id := Some "11"; Dept.externalId := Some "C";
                            Dept.name := None |}];
          service := [];
          calls := [POST Departments
                      (DeptData {| DeptPayload.name := "c";
                                   DeptPayload.externalId := "C";
                                   DeptPayload.parentId := None;
                                   DeptPayload.label := None;
                                   DeptPayload.description := None |})];
          sleeps := [] |}).
Proof. split_and!; vm_compute; reflexivity. Qed.

(** ** The theorems at concrete inputs *)

Lemma acyclic_by_order rows order :
  kahn_order rows = Some order → length order = length rows → acyclic rows.
Proof. intros Hk Hlen Hcycle. by apply (kahn_order_cycle rows order). Qed.

Ltac by_computation := apply (bool_decide_unpack _); vm_compute; exact I.

Lemma rows_chain_NoDup : NoDup (ids rows_chain).
Proof. by_computation. Qed.

Lemma rows_chain_acyclic : acyclic rows_chain.
Proof. by apply (acyclic_by_order _ ["A"; "B"; "C"]). Qed.

Lemma rows_loop_has_cycle : has_cycle rows_loop.
Proof.
  exists "X". apply (tc_l _ _ "Y").
  - exists (mkrow "X" "x" (Some "Y")). split_and!; [|done..|]; by_computation.
  - apply tc_once.
    exists (mkrow "Y" "y" (Some "X")). split_and!; [|done..|]; by_computation.
Qed.

Lemma acyclic_input_is_ordered_parents_first_witness :
  NoDup (ids rows_chain) ∧ acyclic rows_chain
  ∧ ∃ order, kahn_order rows_chain = Some order
      ∧ order ≡ₚ ids rows_chain
      ∧ (∀ r p, r ∈ rows_chain → pe r = Some p → p ∈ ids rows_chain →
           before p (external_id r) order)
      ∧ build_hierarchy_and_create 5 rows_chain
        = create_departments 5 (by_ext rows_chain) order ∅.
Proof.
  split; [exact rows_chain_NoDup|]. split; [exact rows_chain_acyclic|].
  exact (acyclic_input_is_ordered_parents_first 5 rows_chain
           rows_chain_NoDup rows_chain_acyclic).
Defined.

Lemma cyclic_input_fails_before_any_call_witness :
  has_cycle rows_loop
  ∧ build_hierarchy_and_create 5 rows_loop
      (world [] [reply 200 (Some (json_department "1"))])
    = (Raise (ValueError cycle_message),
       world [] [reply 200 (Some (json_department "1"))]).
Proof.
  split; [exact rows_loop_has_cycle|].
  exact (cyclic_input_fails_before_any_call 5 rows_loop _ rows_loop_has_cycle).
Defined.

Lemma rows_chain_cached r :
  r ∈ rows_chain →
  external_id r ≠ "" ∧ is_Some (cached_id cache_chain (external_id r)).
Proof.
  unfold rows_chain. rewrite !elem_of_cons, elem_of_nil.
  intros [-> | [-> | [-> | []]]]; (split; [done | by eexists]).
Qed.

Lemma cached_department_is_returned_untouched_witness :
  ("B" ≠ ""
   ∧ find_department_by_external_id cache_chain "B" = Some (remote "2" (Some "B") "b")
   ∧ ensure_department 5 "b" "B" (Some "1") None None (world cache_chain [])
     = (Return "2", world cache_chain []))
  ∧ (NoDup (ids rows_chain) ∧ acyclic rows_chain
     ∧ (∀ r, r ∈ rows_chain →
          external_id r ≠ "" ∧ is_Some (cached_id cache_chain (external_id r)))
     ∧ ∃ m, build_hierarchy_and_create 5 rows_chain (world cache_chain [])
            = (Return m, world cache_chain [])
          ∧ ∀ r, r ∈ rows_chain →
              m !! external_id r = cached_id cache_chain (external_id r)).
Proof.
  destruct (cached_department_is_returned_untouched 5) as [Hone Hall].
  split.
  - split; [done|]. split; [reflexivity|].
    exact (Hone "b" "B" (Some "1") None None (world cache_chain [])
                (remote "2" (Some "B") "b") ltac:(done) eq_refl).
  - split; [exact rows_chain_NoDup|]. split; [exact rows_chain_acyclic|].
    split; [exact rows_chain_cached|].
    exact (Hall rows_chain (world cache_chain []) rows_chain_NoDup
                rows_chain_acyclic rows_chain_cached).
Defined.

Lemma legacy_department_is_adopted_witness :
  find_department_by_external_id [remote "7" None "Sales"] "D1" = None
  ∧ find_department_by_name [remote "7" None "Sales"] "Sales"
    = Some (remote "7" None "Sales")
  ∧ ∃ l1 e l2,
      [remote "7" None "Sales"] = l1 ++ e :: l2
      ∧ Dept.id e = Some "7"
      ∧ Forall (λ x, Dept.id x ≠ Some "7") l1
      ∧ ensure_department 5 "Sales" "D1" None (Some "sales") None
          (world [remote "7" None "Sales"] [reply 200 (Some (json_department "7"))])
        = (id_outcome {| Dept.id := Some "7"; Dept.externalId := Some "D1";
                         Dept.name := None |},
           with_cache
             (l1 ++ {| Dept.id := Some "7"; Dept.externalId := Some "D1";
                       Dept.name := None |} :: l2)
             (sent (PATCH (DepartmentById "7")
                          (UpdateData (update_payload "D1" (Some "sales") None))) []
                   (world [remote "7" None "Sales"]
                          [reply 200 (Some (json_department "7"))]))).
Proof.
  split; [reflexivity|]. split; [reflexivity|].
  refine (proj1 (legacy_department_is_adopted 5 "Sales" "D1" None (Some "sales") None
           (world [remote "7" None "Sales"] [reply 200 (Some (json_department "7"))])
           (remote "7" None "Sales") "7"
           {| status_code := 200; body := Some (json_department "7") |} []
           _ _ _ _ _ _) _ (json_department "7") _).
  - right. reflexivity.
  - reflexivity.
  - reflexivity.
  - reflexivity.
  - repeat constructor. by eexists.
  - reflexivity.
  - simpl. lia.
  - reflexivity.
Defined.

Lemma create_conflict_refreshes_then_rechecks_witness :
  ensure_department_create 5 "Sales" "D1" None None None
    (world [] [reply 409 None;
               reply 200 (Some (json_listing [remote "5" (Some "D1") "Sales"]))])
  = (Return "5",
     {| DEPT_CACHE := [remote "5" (Some "D1") "Sales"];
        service := [];
        calls := [POST Departments
                    (DeptData (create_payload "Sales" "D1" None None None));
                  GET (DepartmentsPage 1 100)];
        sleeps := [] |}).
Proof.
  exact (create_conflict_refreshes_then_rechecks 5 "Sales" "D1" None None None
           (world [] [reply 409 None;
                      reply 200 (Some (json_listing [remote "5" (Some "D1") "Sales"]))])
           {| status_code := 409; body := None |}
           [reply 200 (Some (json_listing [remote "5" (Some "D1") "Sales"]))]
           [remote "5" (Some "D1") "Sales"]
           {| DEPT_CACHE := [];
              service := [];
              calls := [POST Departments
                          (DeptData (create_payload "Sales" "D1" None None None));
                        GET (DepartmentsPage 1 100)];
              sleeps := [] |}
           eq_refl eq_refl eq_refl).
Defined.

Lemma outside_parent_is_root_and_left_out_witness :
  NoDup (ids [mkrow "C" "c" (Some "P")])
  ∧ "P" ∉ ids [mkrow "C" "c" (Some "P")]
  ∧ initial_indeg [mkrow "C" "c" (Some "P")] "C" = Some 0
  ∧ ∀ w, ∃ new,
      calls (build_hierarchy_and_create 5 [mkrow "C" "c" (Some "P")] w).2
      = calls w ++ new
      ∧ ∀ payload, POST Departments (DeptData payload) ∈ new →
          DeptPayload.externalId payload = "C" →
          DeptPayload.parentId payload = None.
Proof.
  assert (Hids : NoDup (ids [mkrow "C" "c" (Some "P")])) by by_computation.
  assert (Hout : "P" ∉ ids [mkrow "C" "c" (Some "P")]) by by_computation.
  split; [exact Hids|]. split; [exact Hout|].
  exact (outside_parent_is_root_and_left_out 5 [mkrow "C" "c" (Some "P")]
           (mkrow "C" "c" (Some "P")) "P" Hids
           ltac:(by apply list_elem_of_singleton) eq_refl Hout).
Defined.

Lemma user_conflict_is_exists_and_loop_goes_on_witness :
  (create_user (user "ivan" "D1") {["D1" := "7"]}
     (world [] [reply 409 None; reply 200 (Some (json_department "42"))])
   = (Return (user_exists (user "ivan" "D1")),
      sent (POST Users (UserData (user_body (user "ivan" "D1") "7")))
           [reply 200 (Some (json_department "42"))]
           (world [] [reply 409 None; reply 200 (Some (json_department "42"))]))
   ∧ create_users [user "ivan" "D1"; user "olga" "D1"] {["D1" := "7"]} []
       (world [] [reply 409 None; reply 200 (Some (json_department "42"))])
     = create_users [user "olga" "D1"] {["D1" := "7"]}
         ([] ++ [user_exists (user "ivan" "D1")])
         (slept (1 # 2)
            (sent (POST Users (UserData (user_body (user "ivan" "D1") "7")))
                  [reply 200 (Some (json_department "42"))]
                  (world [] [reply 409 None; reply 200 (Some (json_department "42"))]))))
  ∧ create_users [user "ivan" "D1"; user "olga" "D1"] {["D1" := "7"]} []
      (world [] [reply 400 None; reply 200 (Some (json_department "42"))])
    = (Raise (HTTPError (Some {| status_code := 400; body := None |})),
       sent (POST Users (UserData (user_body (user "ivan" "D1") "7")))
            [reply 200 (Some (json_department "42"))]
            (world [] [reply 400 None; reply 200 (Some (json_department "42"))])).
Proof.
  split.
  - exact (proj1 (user_conflict_is_exists_and_loop_goes_on
                    (user "ivan" "D1") {["D1" := "7"]} "7" [user "olga" "D1"] []
                    (world [] [reply 409 None; reply 200 (Some (json_department "42"))])
                    {| status_code := 409; body := None |}
                    [reply 200 (Some (json_department "42"))]
                    eq_refl eq_refl) eq_refl).
  - refine (proj2 (user_conflict_is_exists_and_loop_goes_on
                    (user "ivan" "D1") {["D1" := "7"]} "7" [user "olga" "D1"] []
                    (world [] [reply 400 None; reply 200 (Some (json_department "42"))])
                    {| status_code := 400; body := None |}
                    [reply 200 (Some (json_department "42"))]
                    eq_refl eq_refl) _ _ eq_refl).
    + simpl. lia.
    + simpl. lia.
Defined.

Lemma mapping_holds_exactly_the_input_departments_witness :
  NoDup (ids [mkrow "A" "a" None])
  ∧ dom ({["A" := "1"]} : gmap string string) = list_to_set (ids [mkrow "A" "a" None])
  ∧ size ({["A" := "1"]} : gmap string string) = length [mkrow "A" "a" None]
  ∧ ∀ u us results w2,
      (UserRow.dept_external_id u ∉ ids [mkrow "A" "a" None] →
         create_users (u :: us) {["A" := "1"]} results w2
         = (Raise (department_not_found u), w2))
      ∧ (UserRow.dept_external_id u ∈ ids [mkrow "A" "a" None] →
         ∃ dept_id,
           ({["A" := "1"]} : gmap string string) !! UserRow.dept_external_id u
           = Some dept_id
           ∧ calls (create_user u {["A" := "1"]} w2).2
             = calls w2 ++ [POST Users (UserData (user_body u dept_id))]
           ∧ ∀ v, (create_user u {["A" := "1"]} w2).1 ≠ Raise (department_not_found v)).
Proof.
  apply (mapping_holds_exactly_the_input_departments 5 [mkrow "A" "a" None]
           (world [] [reply 200 (Some (json_department "1"))]) {["A" := "1"]}
           {| DEPT_CACHE := [{| Dept.id := Some "1"; Dept.externalId := Some "A";
                                Dept.name := None |}];
              service := [];
              calls := [POST Departments
                          (DeptData (create_payload "a" "A" None None None))];
              sleeps := [] |}).
  vm_compute. reflexivity.
Defined.

Lemma user_body_defaults_witness :
  UserBody.language (user_body (user "ivan" "D1") "7") = Some "ru"
  ∧ UserBody.timezone (user_body (user "ivan" "D1") "7") = Some "Europe/Moscow"
  ∧ UserBody.middle (user_body (user "ivan" "D1") "7") = Some ""
  ∧ UserBody.position (user_body (user "ivan" "D1") "7") = Some ""
  ∧ UserBody.externalId (user_body (user "ivan" "D1") "7") = Some ""
  ∧ UserBody.password (user_body (user "ivan" "D1") "7") = Some ""
  ∧ UserBody.passwordChangeRequired (user_body (user "ivan" "D1") "7") = true
  ∧ calls (create_user (user "ivan" "D1") {["D1" := "7"]} (world [] [])).2
    = calls (world [] []) ++ [POST Users (UserData (user_body (user "ivan" "D1") "7"))].
Proof.
  destruct (user_body_defaults (user "ivan" "D1") "7")
    as (Hlang & Htz & Hmid & Hpos & Hext & Hpw & _ & Hflag & Hcalls).
  split_and!.
  - exact (Hlang eq_refl).
  - exact (Htz eq_refl).
  - exact (Hmid eq_refl).
  - exact (Hpos eq_refl).
  - exact (Hext eq_refl).
  - exact (Hpw eq_refl).
  - exact (Hflag eq_refl).
  - exact (Hcalls {["D1" := "7"]} (world [] []) eq_refl).
Defined.

(** * Further properties *)

(** ** The resolution order, for any input *)

Lemma relax_appends vs : ∀ m q, ∃ pushed, (relax vs m q).2 = q ++ pushed.
Proof.
  induction vs as [|v vs IH]; intros m q; simpl.
  { exists []. by rewrite app_nil_r. }
  case_decide.
  - destruct (IH (<[v:=od_getd m v - 1]> m) (q ++ [v])) as [pushed ->].
    exists (v :: pushed). by rewrite <- app_assoc.
  - apply IH.
Qed.

Lemma kahn_loop_prefix fuel graph : ∀ m q o res,
  kahn_loop fuel graph m q o = Some res → ∃ rest, res = o ++ q ++ rest.
Proof.
  induction fuel as [|fuel IH]; intros m q o res; simpl; [done|].
  destruct q as [|u q].
  - intros [= <-]. exists []. by rewrite !app_nil_r.
  - destruct (relax_appends (children graph u) m q) as [pushed Hq].
    destruct (relax (children graph u) m q) as [m' q'] eqn:Hrelax. simpl in Hq. subst q'.
    intros (rest & ->)%IH. exists (pushed ++ rest).
    by rewrite <- !app_assoc.
Qed.

Lemma built_keys_NoDup B l :
  NoDup (ids l) → od_keys (build_graph B l).2 = ids l.
Proof.
  induction l as [|r l IH] using rev_ind; [done|].
  rewrite ids_snoc, build_graph_snoc, NoDup_app.
  intros (Hnd & Hfresh & _).
  assert (Hnew : od_map (build_graph B l).2 !! external_id r = None).
  { apply eq_None_not_Some. intros H%built_keys. apply (Hfresh _ H). set_solver. }
  unfold build_step, od_setdefault, od_set.
  destruct (in_set_parent B r); simpl; rewrite Hnew; simpl; by rewrite IH.
Qed.

Lemma filter_fmap_agree {A B} (f : A → B) (P : B → Prop) (Q : A → Prop)
    `{!∀ y, Decision (P y)} `{!∀ x, Decision (Q x)} (l : list A) :
  (∀ x, x ∈ l → P (f x) ↔ Q x) → filter P (f <$> l) = f <$> filter Q l.
Proof.
  induction l as [|a l IH]; intros HPQ; [done|]. rewrite fmap_cons.
  destruct (decide (Q a)) as [Hq|Hq].
  - rewrite !filter_cons_True by (try apply HPQ; set_solver).
    rewrite fmap_cons, IH; [done|]. intros; apply HPQ; set_solver.
  - rewrite !filter_cons_False; [apply IH; intros; apply HPQ; set_solver|done|].
    intros Hp. apply Hq, HPQ; [set_solver|done].
Qed.

Lemma zero_keys_roots rows :
  NoDup (ids rows) →
  od_zero_keys (build_graph (by_ext rows) rows).2 = roots rows.
Proof.
  intros Hids. unfold od_zero_keys, roots. rewrite built_keys_NoDup by done.
  unfold ids. apply filter_fmap_agree. intros r Hr.
  rewrite built_indeg_NoDup by done.
  destruct (in_set_parent (by_ext rows) r); naive_solver.
Qed.

(** X1.  Whatever the rows, duplicates and cycles included, the [while q]
    loop ends and leaves an order without repetition that holds keys of the
    input only. *)
Theorem resolution_always_ends rows :
  ∃ order, kahn_order rows = Some order
    ∧ NoDup order
    ∧ (∀ v, v ∈ order → v ∈ ids rows)
    ∧ (length order ≤ length rows)%nat.
Proof.
  destruct (kahn_order_total rows) as [order Hk]. exists order.
  destruct (kahn_order_NoDup _ _ Hk) as [Hnd Hin]. split_and!; [done..|].
  rewrite <- (length_fmap external_id rows).
  apply submseteq_length. by apply NoDup_submseteq.
Qed.

(** X2.  With distinct keys, the order starts with the rows that name no
    parent among the rows, in the order of the input. *)
Theorem roots_come_first_in_input_order rows order :
  NoDup (ids rows) → kahn_order rows = Some order →
  ∃ rest, order = roots rows ++ rest.
Proof.
  intros Hids. rewrite kahn_order_unfold, zero_keys_roots by done.
  intros (rest & ->)%kahn_loop_prefix. by exists rest.
Qed.

Lemma roots_come_first_in_input_order_witness :
  NoDup (ids [mkrow "B" "b" (Some "R"); mkrow "R" "r" None; mkrow "A" "a" (Some "R");
              mkrow "Q" "q" (Some "elsewhere")])
  ∧ kahn_order [mkrow "B" "b" (Some "R"); mkrow "R" "r" None; mkrow "A" "a" (Some "R");
                mkrow "Q" "q" (Some "elsewhere")]
    = Some ["R"; "Q"; "B"; "A"]
  ∧ ∃ rest,
      ["R"; "Q"; "B"; "A"]
      = roots [mkrow "B" "b" (Some "R"); mkrow "R" "r" None; mkrow "A" "a" (Some "R");
               mkrow "Q" "q" (Some "elsewhere")] ++ rest.
Proof.
  assert (Hids : NoDup (ids [mkrow "B" "b" (Some "R"); mkrow "R" "r" None;
                             mkrow "A" "a" (Some "R");
                             mkrow "Q" "q" (Some "elsewhere")])) by by_computation.
  split; [exact Hids|]. split; [vm_compute; reflexivity|].
  exact (roots_come_first_in_input_order _ ["R"; "Q"; "B"; "A"] Hids
           ltac:(vm_compute; reflexivity)).
Defined.

(** ** Which exceptions a computation raises *)

Section raises.
Context (P : Exn → Prop).
Hypothesis P_http : ∀ r, P (HTTPError r).
Hypothesis P_transport : P ConnectionError.
Hypothesis P_json : P JSONDecodeError.
Hypothesis P_id : P (KeyError "id").

Lemma raises_ret {A} (a : A) : raises_only P (ret a).
Proof. by intros w e. Qed.

Lemma raises_diverge {A} : raises_only P (@diverge A).
Proof. by intros w e. Qed.

Lemma raises_raise {A} e : P e → raises_only P (@raise A e).
Proof. intros He w e' [= <-]. done. Qed.

Lemma raises_bind {A B} (m : M A) (k : A → M B) :
  raises_only P m → (∀ a, raises_only P (k a)) → raises_only P (bind m k).
Proof.
  intros Hm Hk w e. unfold bind. specialize (Hm w).
  destruct (m w) as [[a|e'|] w1]; simpl in *; [apply Hk | | done].
  intros [= <-]. by apply Hm.
Qed.

Lemma raises_except {A} (m : M A) (h : option Response → M A) :
  raises_only P m → (∀ r, raises_only P (h r)) → raises_only P (except_HTTPError m h).
Proof.
  intros Hm Hh w e. unfold except_HTTPError. specialize (Hm w).
  destruct (m w) as [[a|e'|] w1]; simpl in *; [done| |done].
  destruct e'; try (intros [= <-]; by apply Hm). apply Hh.
Qed.

Lemma raises_item_id d : raises_only P (item_id d).
Proof. unfold item_id. destruct (Dept.id d); [apply raises_ret | by apply raises_raise]. Qed.

Lemma raises_raise_for_status r : raises_only P (raise_for_status r).
Proof.
  unfold raise_for_status. case_decide; [by apply raises_raise | apply raises_ret].
Qed.

Lemma raises_json r : raises_only P (json r).
Proof. unfold json. destruct (body r); [apply raises_ret | by apply raises_raise]. Qed.

Lemma raises_request rq : raises_only P (backoff_retry_default (send rq)).
Proof.
  intros w e. rewrite backoff_retry_send. unfold send.
  destruct (service w) as [|[r|] rest]; simpl; by intros [= <-].
Qed.

Lemma raises_list_pages n : ∀ page result, raises_only P (list_pages n page result).
Proof.
  induction n as [|n IH]; intros page result; simpl; [apply raises_diverge|].
  apply raises_bind; [apply raises_request|]. intros r.
  apply raises_bind; [apply raises_raise_for_status|]. intros _.
  apply raises_bind; [apply raises_json|]. intros data.
  case_decide; [apply raises_ret | apply IH].
Qed.

Lemma raises_refresh fuel : raises_only P (refresh_dept_cache fuel).
Proof.
  apply raises_bind; [apply raises_list_pages|]. by intros c w e.
Qed.

Lemma raises_ensure_department fuel nm ext parent lbl desc :
  raises_only P (ensure_department fuel nm ext parent lbl desc).
Proof.
  unfold ensure_department.
  apply raises_bind; [by intros w e|]. intros cache.
  destruct (if decide (ext = "") then None else _) as [d|]; [apply raises_item_id|].
  apply raises_bind.
  - destruct (find_department_by_name cache nm) as [d|]; [|apply raises_ret].
    case_decide; [|apply raises_ret].
    apply raises_except; [|intros; apply raises_ret].
    apply raises_bind; [|intros; apply raises_ret].
    unfold ensure_department_adopt.
    apply raises_bind; [apply raises_item_id|]. intros target.
    apply raises_bind; [apply raises_request|]. intros r.
    apply raises_bind; [apply raises_raise_for_status|]. intros _.
    apply raises_bind; [apply raises_json|]. intros j.
    apply raises_bind; [by intros w e|]. intros c.
    destruct (replace_by_id _ _ _); [|by apply raises_raise].
    apply raises_bind; [by intros w e|]. intros _. apply raises_item_id.
  - intros [i|]; [apply raises_ret|]. unfold ensure_department_create.
    apply raises_bind; [apply raises_request|]. intros r.
    apply raises_bind.
    + case_decide; [|apply raises_ret].
      apply raises_bind; [apply raises_refresh|]. intros _.
      apply raises_bind; [by intros w e|]. intros c.
      destruct (find_department_by_external_id c ext).
      * apply raises_bind; [apply raises_item_id|]. intros; apply raises_ret.
      * apply raises_bind; [apply raises_raise_for_status|]. intros; apply raises_ret.
    + intros [i|]; [apply raises_ret|].
      apply raises_bind; [apply raises_raise_for_status|]. intros _.
      apply raises_bind; [apply raises_json|]. intros j.
      apply raises_bind; [by intros w e|]. intros c.
      apply raises_bind; [by intros w e|]. intros _. apply raises_item_id.
Qed.


(** In an order where parents come first, the check of line 190 passes. *)
Lemma resolve_parent_ready rows m r order :
  NoDup (ids rows) → r ∈ rows → NoDup (external_id r :: order) →
  (∀ p, par rows (external_id r) = Some p →
     is_Some (m !! p) ∨ before p (external_id r) (external_id r :: order)) →
  resolve_parent (by_ext rows) m (external_id r) r = ret (pe r ≫= λ p, m !! p).
Proof.
  intros Hids Hr Hnd Hpar. unfold resolve_parent.
  destruct (pe r) as [p|] eqn:Hpe; [|done].
  case_decide as Hbad; [|done]. exfalso. destruct Hbad as [Hnone Hp].
  destruct (Hpar p) as [Hsome | Hb].
  - rewrite par_row by done. apply in_set_parent_spec. split; [done|].
    by apply by_ext_is_Some.
  - rewrite Hnone in Hsome. by destruct Hsome.
  - by apply before_head in Hb.
Qed.

Lemma raises_create_departments fuel rows order : ∀ m,
  NoDup (ids rows) → NoDup order → (∀ v, v ∈ order → v ∈ ids rows) →
  (∀ v p, v ∈ order → par rows v = Some p → is_Some (m !! p) ∨ before p v order) →
  raises_only P (create_departments fuel (by_ext rows) order m).
Proof.
  induction order as [|v order IH]; intros m Hids Hnd Hin Hpar;
    cbn [create_departments]; [apply raises_ret|].
  assert (Hv0 : v ∈ ids rows) by set_solver.
  apply list_elem_of_fmap in Hv0 as (r & -> & Hr).
  rewrite by_ext_lookup_NoDup by done.
  rewrite (resolve_parent_ready rows m r order) by (try done; intros; apply Hpar; set_solver).
  rewrite bind_ret.
  apply raises_bind; [apply raises_ensure_department|]. intros i.
  apply NoDup_cons in Hnd as [Hv Hnd].
  apply IH; [done..|set_solver|].
  intros v' p Hv' Hp. destruct (Hpar v' p) as [Hsome | Hb]; [set_solver|done|..].
  - left. rewrite lookup_insert_is_Some. destruct (decide (external_id r = p)); auto.
  - apply before_cons_inv in Hb as [-> | Hb]; [|by right].
    left. rewrite lookup_insert_eq. eauto.
Qed.
End raises.

Lemma service_error_http r : service_error (HTTPError r).
Proof. left. eauto. Qed.


Lemma create_departments_service_error fuel rows order :
  kahn_order rows = Some order → length order = length rows →
  raises_only service_error (create_departments fuel (by_ext rows) order ∅).
Proof.
  intros Hk Hlen.
  pose proof (kahn_order_full _ _ Hk Hlen) as Hperm.
  destruct (kahn_order_NoDup _ _ Hk) as [Hnd Hin].
  assert (Hids : NoDup (ids rows)) by by rewrite <- Hperm.
  destruct (kahn_order_forest _ Hids _ Hk) as (_ & _ & Hbefore).
  apply raises_create_departments; try done.
  - apply service_error_http.
  - right. by left.
  - right. right. by left.
  - right. right. by right.
  - intros v p Hv Hp. right. by apply Hbefore.
Qed.

(** A key that stays out of the order sits below a cycle. *)
Lemma unordered_key_cycle rows order v :
  NoDup (ids rows) → kahn_order rows = Some order →
  v ∈ ids rows → v ∉ order → has_cycle rows.
Proof.
  intros Hids Hk Hv Hout.
  destruct (kahn_order_forest _ Hids _ Hk) as (Hroot & Hdone & _).
  set (U := λ x, x ∈ ids rows ∧ x ∉ order).
  assert (Hup : ∀ x, U x → ∃ p, par rows x = Some p ∧ U p).
  { intros x [Hx Hxo]. destruct (par rows x) as [p|] eqn:Hp.
    - exists p. split; [done|]. split; [by apply par_in_ids in Hp as [_ ?]|].
      intros Hpo. by apply Hxo, (Hdone x p).
    - by destruct Hxo; apply Hroot. }
  destruct (ancestors_unordered rows U (S (length (ids rows))) v Hup) as [Hlen Hall]; [done|].
  destruct (not_NoDup_split (ancestors rows (S (length (ids rows))) v))
    as (l1 & x & l2 & Hsplit & Hx).
  { apply (pigeonhole _ (ids rows)); [|lia]. intros y Hy. by apply Hall. }
  exists x. by eapply ancestors_repeat.
Qed.

Lemma short_order_has_reason rows order :
  kahn_order rows = Some order → length order ≠ length rows →
  has_cycle rows ∨ ¬ NoDup (ids rows).
Proof.
  intros Hk Hlen. destruct (decide (NoDup (ids rows))) as [Hids|]; [left|by right].
  destruct (kahn_order_NoDup _ _ Hk) as [Hnd Hin].
  destruct (decide (Forall (λ v, v ∈ order) (ids rows))) as [Hall|Hsome].
  - exfalso. apply Hlen. rewrite Forall_forall in Hall.
    rewrite <- (length_fmap external_id rows).
    apply Permutation_length, NoDup_Permutation; [done..|]. naive_solver.
  - apply not_Forall_Exists in Hsome; [|solve_decision].
    apply Exists_exists in Hsome as (v & Hv & Hout).
    by apply (unordered_key_cycle rows order v).
Qed.

Lemma long_order_has_none rows order :
  kahn_order rows = Some order → has_cycle rows ∨ ¬ NoDup (ids rows) →
  length order ≠ length rows.
Proof.
  intros Hk [Hcycle | Hdup]; [by apply kahn_order_cycle|].
  intros Hlen. apply Hdup. rewrite <- (kahn_order_full _ _ Hk Hlen).
  by destruct (kahn_order_NoDup _ _ Hk).
Qed.

Lemma cycle_error_iff fuel rows w :
  (build_hierarchy_and_create fuel rows w).1 = Raise (ValueError cycle_message)
  ↔ has_cycle rows ∨ ¬ NoDup (ids rows).
Proof.
  unfold build_hierarchy_and_create.
  destruct (kahn_order_total rows) as [order Hk]. rewrite Hk.
  case_decide as Hlen.
  - split; [|done]. intros _. by apply (short_order_has_reason rows order).
  - split.
    + intros Hraise. by apply (create_departments_service_error fuel rows order Hk) in Hraise
        as [[? ?]|[?|[?|?]]].
    + intros Hwhy. by apply (long_order_has_none rows order) in Hwhy.
Qed.

Lemma build_hierarchy_refuses fuel rows w :
  has_cycle rows ∨ ¬ NoDup (ids rows) →
  build_hierarchy_and_create fuel rows w = (Raise (ValueError cycle_message), w).
Proof.
  intros Hwhy. unfold build_hierarchy_and_create.
  destruct (kahn_order_total rows) as [order Hk]. rewrite Hk.
  rewrite decide_True; [done|]. by apply long_order_has_none.
Qed.

(** X3.  The cycle error is raised exactly for the inputs that have a cycle
    of parent links or two rows with the same key, and it is raised with the
    world as it was; a repeated key is reported as a cycle. *)
Theorem cycle_error_exactly_for_cycles_and_repeated_keys fuel rows w :
  ((build_hierarchy_and_create fuel rows w).1 = Raise (ValueError cycle_message)
   ↔ has_cycle rows ∨ ¬ NoDup (ids rows))
  ∧ (has_cycle rows ∨ ¬ NoDup (ids rows) →
     build_hierarchy_and_create fuel rows w = (Raise (ValueError cycle_message), w)).
Proof. split; [apply cycle_error_iff | apply build_hierarchy_refuses]. Qed.

Lemma cycle_error_exactly_for_cycles_and_repeated_keys_witness :
  ¬ NoDup (ids [mkrow "A" "a" None; mkrow "A" "again" None])
  ∧ build_hierarchy_and_create 5 [mkrow "A" "a" None; mkrow "A" "again" None]
      (world [] [reply 201 (Some (json_department "1"))])
    = (Raise (ValueError cycle_message),
       world [] [reply 201 (Some (json_department "1"))]).
Proof.
  assert (Hdup : ¬ NoDup (ids [mkrow "A" "a" None; mkrow "A" "again" None]))
    by by_computation.
  split; [exact Hdup|].
  exact (proj2 (cycle_error_exactly_for_cycles_and_repeated_keys 5
                  [mkrow "A" "a" None; mkrow "A" "again" None]
                  (world [] [reply 201 (Some (json_department "1"))]))
               (or_intror Hdup)).
Defined.

(** ** The retry wrapper on its own *)




(** X5.  An attempt that returns, or raises anything but the [HTTPError] of
    a transient status (another status, an [HTTPError] without response, any
    other exception), is the result of the wrapper: no sleep, no second
    attempt. *)
Theorem backoff_retry_passes_other_outcomes {A} (fn : M A) n base w :
  (∀ r, (fn w).1 = Raise (HTTPError (Some r)) → transient (status_code r) = false) →
  backoff_retry fn (S n) base w = fn w.
Proof.
  intros Hfatal. unfold backoff_retry. simpl. unfold except_HTTPError.
  destruct (fn w) as [[a|e|] w'] eqn:Hfn; [done| |done].
  destruct e as [[r|]| | | | |]; try done.
  simpl in Hfatal. by rewrite (Hfatal r eq_refl).
Qed.

Lemma backoff_retry_passes_other_outcomes_witness :
  backoff_retry (raise (HTTPError (Some {| status_code := 404; body := None |})) : M unit)
    10 1 (world [] [])
  = (Raise (HTTPError (Some {| status_code := 404; body := None |})), world [] []).
Proof.
  refine (backoff_retry_passes_other_outcomes
            (raise (HTTPError (Some {| status_code := 404; body := None |})))
            9 1 (world [] []) _).
  intros r [= <-]. reflexivity.
Defined.

(** X6.  A wrapped [S.get], [S.patch] or [S.post] is one request, whatever
    the status of the answer, the number of retries (at least one) and the
    base delay. *)
Theorem wrapped_request_is_sent_once rq retries base w :
  retries ≠ 0%nat → backoff_retry (send rq) retries base w = send rq w.
Proof.
  intros Hn. destruct retries as [|n]; [done|]. apply backoff_loop_send.
Qed.

Lemma wrapped_request_is_sent_once_witness :
  backoff_retry (send (GET Departments)) 10 1 (world [] [reply 429 None; reply 200 None])
  = (Return {| status_code := 429; body := None |},
     sent (GET Departments) [reply 200 None] (world [] [reply 429 None; reply 200 None])).
Proof.
  exact (wrapped_request_is_sent_once (GET Departments) 10 1
           (world [] [reply 429 None; reply 200 None]) ltac:(done)).
Defined.

(** ** The listing *)

Lemma page_requests_S first k :
  page_requests first (S k) = GET (DepartmentsPage first 100) :: page_requests (first + 1) k.
Proof.
  unfold page_requests. simpl. rewrite Z.add_0_r. f_equal.
  rewrite <- fmap_S_seq, <- list_fmap_compose. apply list_fmap_ext.
  intros _ i _. simpl. do 2 f_equal. lia.
Qed.

Lemma list_pages_step n page result w r rest j :
  service w = Answer r :: rest → ¬ (400 ≤ status_code r < 600) → body r = Some j →
  list_pages (S n) page result w
  = (if decide (default 1 (Json.pages j) ≤ page)
     then ret (result ++ default [] (Json.departments j))
     else list_pages n (page + 1) (result ++ default [] (Json.departments j)))
      (sent (GET (DepartmentsPage page 100)) rest w).
Proof.
  intros Hsvc Hok Hbody. cbn [list_pages]. unfold bind at 1.
  rewrite (request_Answer _ _ _ _ Hsvc).
  unfold bind at 1. rewrite raise_for_status_ok by done.
  unfold bind at 1, json. by rewrite Hbody.
Qed.

Lemma list_pages_all dss : ∀ n page result rest w,
  dss ≠ [] → (length dss ≤ n)%nat →
  service w = (page_reply (page + Z.of_nat (length dss) - 1) <$> dss) ++ rest →
  list_pages n page result w
  = (Return (result ++ concat dss), fetched (page_requests page (length dss)) rest w).
Proof.
  induction dss as [|ds dss IH]; intros n page result rest w Hne Hn Hsvc; [done|].
  destruct n as [|n]; [simpl in Hn; lia|].
  rewrite (list_pages_step n page result w _ _ _ Hsvc ltac:(simpl; lia) eq_refl).
  cbn [Json.pages Json.departments default from_option id length].
  rewrite page_requests_S.
  destruct dss as [|ds' dss].
  - rewrite decide_True by (simpl; lia). simpl. unfold ret, fetched, sent. simpl.
    by rewrite app_nil_r.
  - rewrite decide_False by (simpl length; lia).
    rewrite (IH n (page + 1) (result ++ ds) rest); [|done|simpl in *; lia|].
    + unfold fetched, sent. simpl. rewrite <- !app_assoc. done.
    + replace (page + 1 + Z.of_nat (length (ds' :: dss)) - 1)
        with (page + Z.of_nat (S (length (ds' :: dss))) - 1) by lia.
      done.
Qed.

(** X7.  The service has [k >= 1] pages and answers each listing request
    with the departments of the page and the number of pages.  The listing
    asks for the pages [1 .. k], one request each, and returns the
    departments of all pages in that order; it leaves the cache alone. *)
Theorem listing_reads_every_page_once fuel dss rest w :
  dss ≠ [] → (length dss ≤ fuel)%nat →
  service w = (page_reply (Z.of_nat (length dss)) <$> dss) ++ rest →
  list_all_departments fuel w
  = (Return (concat dss), fetched (page_requests 1 (length dss)) rest w).
Proof.
  intros Hne Hn Hsvc. unfold list_all_departments.
  rewrite (list_pages_all dss fuel 1 [] rest w); [done..|].
  rewrite Hsvc. do 3 f_equal. lia.
Qed.

Lemma listing_reads_every_page_once_witness :
  list_all_departments 5
    (world [remote "9" None "old"]
       [page_reply 2 [remote "1" (Some "A") "a"]; page_reply 2 [remote "2" None "b"];
        reply 500 None])
  = (Return [remote "1" (Some "A") "a"; remote "2" None "b"],
     {| DEPT_CACHE := [remote "9" None "old"];
        service := [reply 500 None];
        calls := [GET (DepartmentsPage 1 100); GET (DepartmentsPage 2 100)];
        sleeps := [] |}).
Proof.
  exact (listing_reads_every_page_once 5
           [[remote "1" (Some "A") "a"]; [remote "2" None "b"]] [reply 500 None]
           (world [remote "9" None "old"]
              [page_reply 2 [remote "1" (Some "A") "a"];
               page_reply 2 [remote "2" None "b"]; reply 500 None])
           ltac:(done) ltac:(simpl; lia) eq_refl).
Defined.

Lemma fetched_sent rq rest rqs rest' w :
  fetched rqs rest' (sent rq rest w) = fetched (rq :: rqs) rest' w.
Proof. unfold fetched, sent. simpl. by rewrite <- app_assoc. Qed.

(** The listing changes nothing but the replies left and the log of
    requests. *)
Lemma list_pages_frame n : ∀ page result w,
  ∃ rqs rest, (list_pages n page result w).2 = fetched rqs rest w.
Proof.
  induction n as [|n IH]; intros page result w.
  { exists [], (service w). unfold fetched. simpl. rewrite app_nil_r. by destruct w. }
  cbn [list_pages]. unfold bind at 1. rewrite backoff_retry_send. unfold send.
  destruct (service w) as [|[r|] rest]; simpl;
    [by exists [GET (DepartmentsPage page 100)], [] | |
     by exists [GET (DepartmentsPage page 100)], rest].
  unfold bind at 1, raise_for_status. case_decide; simpl;
    [by exists [GET (DepartmentsPage page 100)], rest|].
  unfold bind at 1, json. destruct (body r) as [j|]; simpl;
    [|by exists [GET (DepartmentsPage page 100)], rest].
  case_decide; simpl; [by exists [GET (DepartmentsPage page 100)], rest|].
  destruct (IH (page + 1) (result ++ default [] (Json.departments j))
               (sent (GET (DepartmentsPage page 100)) rest w)) as (rqs & rest' & ->).
  eexists _, _. apply fetched_sent.
Qed.

(** X8.  A refresh replaces the cache by the listing when the listing
    returns; when the listing raises, the refresh raises the same and the
    cache stays as it was.  In no case does a refresh sleep. *)
Theorem refresh_replaces_cache_or_keeps_it fuel w :
  (∀ c w1, list_all_departments fuel w = (Return c, w1) →
     refresh_dept_cache fuel w = (Return tt, with_cache c w1))
  ∧ (∀ e w1, list_all_departments fuel w = (Raise e, w1) →
     refresh_dept_cache fuel w = (Raise e, w1) ∧ DEPT_CACHE w1 = DEPT_CACHE w)
  ∧ sleeps (refresh_dept_cache fuel w).2 = sleeps w.
Proof.
  unfold refresh_dept_cache, bind.
  destruct (list_pages_frame fuel 1 [] w) as (rqs & rest & Hframe).
  fold (list_all_departments fuel) in Hframe.
  destruct (list_all_departments fuel w) as [[c| |] w1]; simpl in *; subst w1.
  - split_and!; [by intros ?? [= <- <-] | done | done].
  - split_and!; [done | by intros ?? [= <- <-] | done].
  - split_and!; done.
Qed.

Lemma refresh_replaces_cache_or_keeps_it_witness :
  refresh_dept_cache 5 (world [remote "9" None "old"] [page_reply 1 [remote "1" None "a"]])
  = (Return tt,
     with_cache [remote "1" None "a"]
       (sent (GET (DepartmentsPage 1 100)) []
          (world [remote "9" None "old"] [page_reply 1 [remote "1" None "a"]])))
  ∧ (refresh_dept_cache 5 (world [remote "9" None "old"] [reply 500 None])
     = (Raise (HTTPError (Some {| status_code := 500; body := None |})),
        sent (GET (DepartmentsPage 1 100)) []
          (world [remote "9" None "old"] [reply 500 None]))
     ∧ DEPT_CACHE (sent (GET (DepartmentsPage 1 100)) []
                     (world [remote "9" None "old"] [reply 500 None]))
       = DEPT_CACHE (world [remote "9" None "old"] [reply 500 None])).
Proof.
  split.
  - exact (proj1 (refresh_replaces_cache_or_keeps_it 5
             (world [remote "9" None "old"] [page_reply 1 [remote "1" None "a"]]))
             _ _ eq_refl).
  - exact (proj1 (proj2 (refresh_replaces_cache_or_keeps_it 5
             (world [remote "9" None "old"] [reply 500 None])))
             _ _ eq_refl).
Defined.

(** ** One upsert after another *)

Lemma find_ext_app cache1 cache2 ext :
  find_department_by_external_id cache1 ext = None →
  find_department_by_external_id (cache1 ++ cache2) ext
  = find_department_by_external_id cache2 ext.
Proof.
  unfold find_department_by_external_id.
  induction cache1 as [|d cache1 IH]; [done|]. simpl.
  destruct (bool_decide _); [done|apply IH].
Qed.

Lemma find_ext_prefix cache1 cache2 ext :
  find_department_by_external_id (cache1 ++ cache2) ext = None →
  find_department_by_external_id cache1 ext = None.
Proof.
  unfold find_department_by_external_id.
  induction cache1 as [|d cache1 IH]; [done|]. simpl.
  destruct (bool_decide _); [done|apply IH].
Qed.

Lemma find_ext_stamped cache ext i nm :
  find_department_by_external_id
    ({| Dept.id := i; Dept.externalId := Some ext; Dept.name := nm |} :: cache) ext
  = Some {| Dept.id := i; Dept.externalId := Some ext; Dept.name := nm |}.
Proof.
  unfold find_department_by_external_id. simpl. by rewrite bool_decide_eq_true_2.
Qed.

Lemma replace_by_id_split cache target updated cache' :
  replace_by_id cache target updated = Some cache' →
  (∃ d, d ∈ cache ∧ Dept.id d = Some target) →
  ∃ l1 e l2, cache = l1 ++ e :: l2 ∧ cache' = l1 ++ updated :: l2.
Proof.
  revert cache'. induction cache as [|a cache IH]; intros cache' Hrep (d & Hd & Hid).
  { by apply elem_of_nil in Hd. }
  simpl in Hrep. destruct (Dept.id a) as [i|] eqn:Hi; [|done].
  case_decide as Hit.
  - injection Hrep as <-. by exists [], a, cache.
  - destruct (replace_by_id cache target updated) as [c|] eqn:Hc; [|done].
    injection Hrep as <-.
    destruct (IH c eq_refl) as (l1 & e & l2 & -> & ->).
    + exists d. split; [|done]. apply elem_of_cons in Hd as [->|]; [congruence|done].
    + by exists (a :: l1), e, l2.
Qed.

Lemma adopt_return d ext lbl desc w i w' :
  d ∈ DEPT_CACHE w →
  find_department_by_external_id (DEPT_CACHE w) ext = None →
  ensure_department_adopt d ext lbl desc w = (Return i, w') →
  cached_id (DEPT_CACHE w') ext = Some i.
Proof.
  intros Hd Hmiss. unfold ensure_department_adopt, bind at 1.
  rewrite item_id_outcome. unfold id_outcome.
  destruct (Dept.id d) as [target|] eqn:Hid; [|done].
  unfold bind at 1. rewrite backoff_retry_send. unfold send.
  destruct (service w) as [|[r|] rest]; [done| |done].
  unfold bind at 1, raise_for_status. case_decide; [done|].
  unfold bind at 1, json. destruct (body r) as [j|]; [|done].
  cbn [ret]. unfold bind at 1. cbn [get_cache DEPT_CACHE sent].
  destruct (replace_by_id _ _ _) as [cache'|] eqn:Hrep; [|done].
  apply replace_by_id_split in Hrep as (l1 & e & l2 & Hcache & ->); [|by exists d].
  unfold bind. cbn [set_cache]. rewrite item_id_outcome. unfold id_outcome. simpl.
  destruct (Json.id j) as [i'|]; [|done]. intros [= <- <-]. simpl.
  rewrite Hcache in Hmiss. apply find_ext_prefix in Hmiss.
  unfold cached_id. by rewrite (find_ext_app _ _ _ Hmiss), find_ext_stamped.
Qed.

Lemma adopt_http_error d ext lbl desc w r w' :
  ensure_department_adopt d ext lbl desc w = (Raise (HTTPError r), w') →
  DEPT_CACHE w' = DEPT_CACHE w.
Proof.
  unfold ensure_department_adopt, bind at 1.
  rewrite item_id_outcome. unfold id_outcome.
  destruct (Dept.id d) as [target|] eqn:Hid; [|done].
  unfold bind at 1. rewrite backoff_retry_send. unfold send.
  destruct (service w) as [|[r'|] rest]; [done| |done].
  unfold bind at 1, raise_for_status. case_decide; [by intros [= _ <-]|].
  unfold bind at 1, json. destruct (body r') as [j|]; [|done].
  cbn [ret]. unfold bind at 1. cbn [get_cache DEPT_CACHE sent].
  destruct (replace_by_id _ _ _) as [cache'|]; [|done].
  unfold bind. cbn [set_cache]. rewrite item_id_outcome. unfold id_outcome. simpl.
  by destruct (Json.id j).
Qed.

Lemma create_return fuel nm ext parent lbl desc w i w' :
  find_department_by_external_id (DEPT_CACHE w) ext = None →
  ensure_department_create fuel nm ext parent lbl desc w = (Return i, w') →
  cached_id (DEPT_CACHE w') ext = Some i.
Proof.
  intros Hmiss. unfold ensure_department_create, bind at 1.
  rewrite backoff_retry_send. unfold send.
  destruct (service w) as [|[r|] rest]; [done| |done].
  unfold bind at 1. case_decide as H409.
  - unfold bind at 1, refresh_dept_cache, bind at 1.
    destruct (list_all_departments fuel _) as [[c| |] w2]; [|done..].
    cbn [set_cache]. unfold bind at 1. cbn [get_cache DEPT_CACHE with_cache].
    destruct (find_department_by_external_id c ext) as [d|] eqn:Hfind.
    + unfold bind at 1. rewrite item_id_outcome. unfold id_outcome.
      destruct (Dept.id d) as [i'|] eqn:Hid; [|done]. intros [= <- <-]. simpl.
      unfold cached_id. by rewrite Hfind.
    + unfold bind at 1. rewrite raise_for_status_error by lia. done.
  - cbn [ret]. unfold bind at 1, raise_for_status. case_decide; [done|].
    cbn [ret]. unfold bind at 1, json. destruct (body r) as [j|]; [|done].
    cbn [ret]. unfold bind at 1. cbn [get_cache]. unfold bind. cbn [set_cache].
    rewrite item_id_outcome. unfold id_outcome. simpl.
    destruct (Json.id j) as [i'|]; [|done]. intros [= <- <-]. simpl.
    unfold cached_id. by rewrite (find_ext_app _ _ _ Hmiss), find_ext_stamped.
Qed.

Lemma ensure_department_resolves fuel nm ext parent lbl desc w i w' :
  ext ≠ "" →
  ensure_department fuel nm ext parent lbl desc w = (Return i, w') →
  cached_id (DEPT_CACHE w') ext = Some i.
Proof.
  intros Hext. unfold ensure_department, bind at 1, get_cache.
  rewrite decide_False by done.
  destruct (find_department_by_external_id (DEPT_CACHE w) ext) as [d|] eqn:Hfind.
  { rewrite item_id_outcome. unfold id_outcome.
    destruct (Dept.id d) as [i'|] eqn:Hid; [|done]. intros [= <- <-].
    unfold cached_id. by rewrite Hfind. }
  unfold bind at 1.
  destruct (find_department_by_name (DEPT_CACHE w) nm) as [d|] eqn:Hname;
    [|by apply create_return].
  case_decide; [|by apply create_return].
  unfold except_HTTPError, bind at 1.
  destruct (ensure_department_adopt d ext lbl desc w) as [[i'|e|] w1] eqn:Hadopt.
  - intros [= <- <-]. apply (adopt_return d ext lbl desc w); [|done..].
    by apply find_department_by_name_In in Hname as [? _].
  - destruct e as [r| | | | |]; try done.
    apply adopt_http_error in Hadopt. apply create_return. by rewrite Hadopt.
  - done.
Qed.

(** X9.  Once an upsert has returned an id for a non-empty external id, the
    next upsert of that external id, whatever its other arguments, returns
    the same id and leaves the world as it is: no request, no change of the
    cache. *)
Theorem resolved_department_stays_resolved
    fuel nm ext parent lbl desc w i w' nm2 parent2 lbl2 desc2 :
  ext ≠ "" →
  ensure_department fuel nm ext parent lbl desc w = (Return i, w') →
  ensure_department fuel nm2 ext parent2 lbl2 desc2 w' = (Return i, w').
Proof.
  intros Hext Hfirst%ensure_department_resolves; [|done].
  unfold cached_id in Hfirst.
  destruct (find_department_by_external_id (DEPT_CACHE w') ext) as [d|] eqn:Hfind; [|done].
  rewrite (ensure_department_cached _ _ _ _ _ _ _ d) by done.
  unfold id_outcome. simpl in Hfirst. by rewrite Hfirst.
Qed.

Lemma resolved_department_stays_resolved_witness :
  "D1" ≠ ""
  ∧ ensure_department 5 "Sales" "D1" None None None
      (world [] [reply 201 (Some (json_department "99"))])
    = (Return "99",
       {| DEPT_CACHE := [{| Dept.id := Some "99"; Dept.externalId := Some "D1";
                            Dept.name := None |}];
          service := [];
          calls := [POST Departments
                      (DeptData (create_payload "Sales" "D1" None None None))];
          sleeps := [] |})
  ∧ ensure_department 5 "Sales renamed" "D1" (Some "4") (Some "l") None
      {| DEPT_CACHE := [{| Dept.id := Some "99"; Dept.externalId := Some "D1";
                           Dept.name := None |}];
         service := [];
         calls := [POST Departments
                     (DeptData (create_payload "Sales" "D1" None None None))];
         sleeps := [] |}
    = (Return "99",
       {| DEPT_CACHE := [{| Dept.id := Some "99"; Dept.externalId := Some "D1";
                            Dept.name := None |}];
          service := [];
          calls := [POST Departments
                      (DeptData (create_payload "Sales" "D1" None None None))];
          sleeps := [] |}).
Proof.
  split; [done|]. split; [reflexivity|].
  exact (resolved_department_stays_resolved 5 "Sales" "D1" None None None
           (world [] [reply 201 (Some (json_department "99"))]) "99" _
           "Sales renamed" (Some "4") (Some "l") None ltac:(done) eq_refl).
Defined.

(** X10.  Whatever the service answers, the requests of one upsert are
    pages of the listing, updates that carry the external id, label and
    description of the call and nothing else, and creates that carry the
    payload built from the arguments of the call. *)
Theorem upsert_sends_only_its_own_requests fuel nm ext parent lbl desc w :
  ∃ new,
    calls (ensure_department fuel nm ext parent lbl desc w).2 = calls w ++ new
    ∧ ∀ rq, rq ∈ new →
        (∃ page per_page, rq = GET (DepartmentsPage page per_page))
        ∨ (∃ target, rq = PATCH (DepartmentById target)
                               (UpdateData (update_payload ext lbl desc)))
        ∨ rq = POST Departments (DeptData (create_payload nm ext parent lbl desc)).
Proof.
  destruct (ensure_department_issues fuel nm ext parent lbl desc w) as (new & Hcalls & Hnew).
  exists new. split; [done|]. intros rq Hrq. rewrite Forall_forall in Hnew.
  specialize (Hnew rq Hrq). unfold upsert_request in Hnew.
  destruct rq as [[page per| | |]|[| |target|] [|p|]|[| | |] [p| |]]; try done.
  - left. by exists page, per.
  - right. left. exists target. by subst p.
  - right. right. by subst p.
Qed.

(** ** The user loop *)

Lemma create_user_return u ext_to_id dept_id w res w1 :
  ext_to_id !! UserRow.dept_external_id u = Some dept_id →
  create_user u ext_to_id w = (Return res, w1) →
  UserResult.nickname res = UserRow.nickname u
  ∧ (UserResult.status res = "created" ∨ UserResult.status res = "exists")
  ∧ ∃ rest, w1 = sent (POST Users (UserData (user_body u dept_id))) rest w.
Proof.
  intros Hd. unfold create_user. rewrite Hd. unfold bind at 1.
  rewrite backoff_retry_send. unfold send.
  destruct (service w) as [|[r|] rest]; [done| |done].
  case_decide.
  - intros [= <- <-]. split_and!; [done|by right|by exists rest].
  - unfold bind at 1, raise_for_status. case_decide; [done|]. cbn [ret].
    unfold bind, json. destruct (body r); [|done]. cbn [ret].
    intros [= <- <-]. split_and!; [done|by left|by exists rest].
Qed.

(** X11.  When the user loop returns, it has appended one record per user,
    in the order of the rows, with the user's nickname and the status
    "created" or "exists"; it has sent one create request per user and slept
    half a second after each; the cache is as it was. *)
Theorem user_loop_handles_every_row_once users : ∀ ext_to_id results w out w',
  create_users users ext_to_id results w = (Return out, w') →
  ∃ new,
    out = results ++ new
    ∧ UserResult.nickname <$> new = UserRow.nickname <$> users
    ∧ Forall (λ res, UserResult.status res = "created"
                     ∨ UserResult.status res = "exists") new
    ∧ calls w' = calls w ++ user_requests ext_to_id users
    ∧ length (user_requests ext_to_id users) = length users
    ∧ sleeps w' = sleeps w ++ replicate (length users) (1 # 2)%Q
    ∧ DEPT_CACHE w' = DEPT_CACHE w.
Proof.
  induction users as [|u users IH]; intros m results w out w'; cbn [create_users].
  { intros [= <- <-]. exists []. by rewrite !app_nil_r. }
  case_decide as Hd; [done|].
  destruct (m !! UserRow.dept_external_id u) as [dept_id|] eqn:Hm; [|done].
  unfold bind at 1.
  destruct (create_user u m w) as [[res| |] w1] eqn:Hcreate; [|done..].
  apply (create_user_return _ _ dept_id) in Hcreate as (Hnick & Hstatus & rest & ->); [|done].
  unfold bind at 1. cbn [sleep].
  intros (new & -> & Hnicks & Hstatuses & Hcalls & Hlen & Hsleeps & Hcache)%IH.
  exists (res :: new). unfold user_requests in *. cbn [omap list_omap]. rewrite Hm.
  cbn [fmap option_fmap option_map]. split_and!.
  - by rewrite <- app_assoc.
  - rewrite !fmap_cons. by f_equal.
  - by constructor.
  - rewrite Hcalls. simpl. by rewrite <- app_assoc.
  - simpl. by f_equal.
  - rewrite Hsleeps. simpl. by rewrite <- app_assoc.
  - by rewrite Hcache.
Qed.

Lemma user_loop_handles_every_row_once_witness :
  ∃ new,
    [user_exists (user "ivan" "D1");
     {| UserResult.status := "created"; UserResult.nickname := "olga";
        UserResult.id := Some "42" |}] = [] ++ new
    ∧ UserResult.nickname <$> new = UserRow.nickname <$> [user "ivan" "D1"; user "olga" "D1"]
    ∧ Forall (λ res, UserResult.status res = "created"
                     ∨ UserResult.status res = "exists") new
    ∧ calls (slept (1 # 2)
               (sent (POST Users (UserData (user_body (user "olga" "D1") "7"))) []
                  (slept (1 # 2)
                     (sent (POST Users (UserData (user_body (user "ivan" "D1") "7")))
                        [reply 201 (Some (json_department "42"))]
                        (world [] [reply 409 None;
                                   reply 201 (Some (json_department "42"))])))))
      = calls (world [] [reply 409 None; reply 201 (Some (json_department "42"))])
        ++ user_requests {["D1" := "7"]} [user "ivan" "D1"; user "olga" "D1"]
    ∧ length (user_requests {["D1" := "7"]} [user "ivan" "D1"; user "olga" "D1"])
      = length [user "ivan" "D1"; user "olga" "D1"]
    ∧ sleeps (slept (1 # 2)
               (sent (POST Users (UserData (user_body (user "olga" "D1") "7"))) []
                  (slept (1 # 2)
                     (sent (POST Users (UserData (user_body (user "ivan" "D1") "7")))
                        [reply 201 (Some (json_department "42"))]
                        (world [] [reply 409 None;
                                   reply 201 (Some (json_department "42"))])))))
      = sleeps (world [] [reply 409 None; reply 201 (Some (json_department "42"))])
        ++ replicate (length [user "ivan" "D1"; user "olga" "D1"]) (1 # 2)%Q
    ∧ DEPT_CACHE (slept (1 # 2)
               (sent (POST Users (UserData (user_body (user "olga" "D1") "7"))) []
                  (slept (1 # 2)
                     (sent (POST Users (UserData (user_body (user "ivan" "D1") "7")))
                        [reply 201 (Some (json_department "42"))]
                        (world [] [reply 409 None;
                                   reply 201 (Some (json_department "42"))])))))
      = DEPT_CACHE (world [] [reply 409 None; reply 201 (Some (json_department "42"))]).
Proof.
  exact (user_loop_handles_every_row_once [user "ivan" "D1"; user "olga" "D1"]
           {["D1" := "7"]} []
           (world [] [reply 409 None; reply 201 (Some (json_department "42"))])
           _ _ eq_refl).
Defined.

(** ** A whole run *)



Lemma service_error_id : service_error (KeyError "id").
Proof. right. right. by right. Qed.







(** ** Validation *)

Lemma missing_field_None required row :
  missing_field required row = None ↔ Forall (λ f, has_value row f = true) required.
Proof.
  induction required as [|f fs IH]; simpl; [by split; [constructor|]|].
  rewrite Forall_cons. destruct (has_value row f); naive_solver.
Qed.

Lemma missing_field_Some required row f :
  missing_field required row = Some f →
  ∃ before_f after_f, required = before_f ++ f :: after_f
    ∧ has_value row f = false
    ∧ Forall (λ g, has_value row g = true) before_f.
Proof.
  induction required as [|g fs IH]; simpl; [done|].
  destruct (has_value row g) eqn:Hg.
  - intros (b & a & -> & Hf & Hb)%IH. exists (g :: b), a.
    split_and!; [done..|]. by constructor.
  - intros [= <-]. by exists [], fs.
Qed.

Lemma check_required_None required rows : ∀ i,
  check_required required i rows = None
  ↔ Forall (λ row, Forall (λ f, has_value row f = true) required) rows.
Proof.
  induction rows as [|row rows IH]; intros i; simpl; [by split; [constructor|]|].
  rewrite Forall_cons, <- missing_field_None, <- (IH (S i)).
  destruct (missing_field required row); naive_solver.
Qed.

Lemma check_required_Some required rows : ∀ i e,
  check_required required i rows = Some e →
  ∃ k row f, e = MissingField (i + k) f
    ∧ rows !! k = Some row
    ∧ missing_field required row = Some f
    ∧ Forall (λ row', Forall (λ g, has_value row' g = true) required) (take k rows).
Proof.
  induction rows as [|row rows IH]; intros i e; simpl; [done|].
  destruct (missing_field required row) as [f|] eqn:Hf.
  - intros [= <-]. exists 0%nat, row, f. rewrite Nat.add_0_r. by split_and!.
  - intros (k & row' & f & -> & Hk & Hmiss & Hbefore)%IH.
    exists (S k), row', f. split_and!; [f_equal; lia|done..|].
    simpl. constructor; [by apply missing_field_None|done].
Qed.

Lemma count_positive (x : string) xs :
  (0 < length (filter (λ y, y = x) xs))%nat ↔ x ∈ xs.
Proof.
  induction xs as [|a xs IH]; [simpl; split; [lia|by intros ?%elem_of_nil]|].
  rewrite elem_of_cons. destruct (decide (a = x)) as [->|Hne].
  - rewrite filter_cons_True by done. simpl. split; [by left|lia].
  - rewrite filter_cons_False by done. rewrite IH. naive_solver.
Qed.

Lemma count_twice (x : string) xs :
  (1 < length (filter (λ y, y = x) xs))%nat
  ↔ ∃ i j : nat, (i < j)%nat ∧ xs !! i = Some x ∧ xs !! j = Some x.
Proof.
  induction xs as [|a xs IH].
  { simpl. split; [lia|]. by intros (i & j & _ & ? & _). }
  destruct (decide (a = x)) as [->|Hne].
  - rewrite filter_cons_True by done. simpl. split.
    + intros Hc. assert (x ∈ xs) as [j Hj]%list_elem_of_lookup by (apply count_positive; lia).
      exists 0%nat, (S j). split_and!; [lia|done..].
    + intros (i & j & Hij & Hi & Hj). destruct j as [|j]; [lia|]. simpl in Hj.
      apply list_elem_of_lookup_2, count_positive in Hj. lia.
  - rewrite filter_cons_False by done. rewrite IH. split.
    + intros (i & j & Hij & Hi & Hj). exists (S i), (S j). split_and!; [lia|done..].
    + intros (i & j & Hij & Hi & Hj).
      destruct i as [|i]; [simpl in Hi; congruence|].
      destruct j as [|j]; [lia|]. exists i, j. split_and!; [lia|done..].
Qed.

Lemma elem_of_duplicated x xs :
  x ∈ duplicated xs
  ↔ ∃ i j : nat, (i < j)%nat ∧ xs !! i = Some x ∧ xs !! j = Some x.
Proof.
  unfold duplicated. rewrite elem_of_list_to_set, list_elem_of_filter, count_twice.
  split; [naive_solver|]. intros (i & j & Hij & Hi & Hj). split; [eauto|].
  by eapply list_elem_of_lookup_2.
Qed.

Lemma duplicated_empty xs : duplicated xs = ∅ ↔ NoDup xs.
Proof.
  rewrite NoDup_alt. split.
  - intros Hnone i j x Hi Hj.
    destruct (decide (i = j)) as [|Hne]; [done|]. exfalso.
    assert (x ∈ duplicated xs); [|set_solver].
    apply elem_of_duplicated.
    destruct (decide (i < j)%nat); [exists i, j | exists j, i]; split_and!; try done; lia.
  - intros Hnd. apply set_eq. intros x. rewrite elem_of_duplicated. split; [|set_solver].
    intros (i & j & Hij & Hi & Hj). specialize (Hnd i j x Hi Hj). lia.
Qed.

Lemma ids_dept_row_of raws :
  ids (dept_row_of <$> raws) = (λ row, row_item row "external_id") <$> raws.
Proof. unfold ids. by rewrite <- list_fmap_compose. Qed.

Lemma has_value_row_item row f : has_value row f = true → row_item row f ≠ "".
Proof.
  unfold has_value, row_item. destruct (row !! f) as [[s|]|]; [|done..].
  by intros ?%bool_decide_eq_true.
Qed.

Lemma departments_accepted_iff raws :
  validate_departments_csv raws = None
  ↔ Forall (λ row, has_value row "external_id" = true ∧ has_value row "name" = true) raws
    ∧ NoDup (ids (dept_row_of <$> raws)).
Proof.
  unfold validate_departments_csv. rewrite ids_dept_row_of, <- duplicated_empty.
  destruct (check_required _ 2 raws) as [e|] eqn:Hreq.
  - split; [done|]. intros [Hall _].
    assert (check_required ["external_id"; "name"] 2 raws = None); [|congruence].
    apply check_required_None. eapply Forall_impl; [done|].
    intros row [? ?]. by repeat constructor.
  - apply check_required_None in Hreq. cbv zeta. case_decide as Hdup.
    + split; [|done]. intros _. split; [|done].
      eapply Forall_impl; [done|]. intros row Hrow.
      apply Forall_cons in Hrow as [? [? _]%Forall_cons]. done.
    + split; [done|]. by intros [_ ?].
Qed.

(** X14.  The department rows pass the validation exactly when every row
    has a non-empty external id and a non-empty name and no two rows have
    the same external id. *)
Theorem validate_departments_csv_accepts raws :
  validate_departments_csv raws = None
  ↔ Forall (λ row, has_value row "external_id" = true ∧ has_value row "name" = true) raws
    ∧ NoDup (ids (dept_row_of <$> raws)).
Proof. apply departments_accepted_iff. Qed.

(** X15.  The user rows pass the validation exactly when every row has a
    non-empty nickname, first name, last name and department and no two rows
    have the same nickname. *)
Theorem validate_users_csv_accepts raws :
  validate_users_csv raws = None
  ↔ Forall (λ row, has_value row "nickname" = true ∧ has_value row "first" = true
                   ∧ has_value row "last" = true
                   ∧ has_value row "dept_external_id" = true) raws
    ∧ NoDup (UserRow.nickname <$> (user_row_of <$> raws)).
Proof.
  unfold validate_users_csv.
  rewrite <- list_fmap_compose.
  change (UserRow.nickname ∘ user_row_of) with (λ row, row_item row "nickname").
  rewrite <- duplicated_empty.
  destruct (check_required _ 2 raws) as [e|] eqn:Hreq.
  - split; [done|]. intros [Hall _].
    assert (check_required ["nickname"; "first"; "last"; "dept_external_id"] 2 raws = None);
      [|congruence].
    apply check_required_None. eapply Forall_impl; [done|].
    intros row (? & ? & ? & ?). by repeat constructor.
  - apply check_required_None in Hreq. cbv zeta. case_decide as Hdup.
    + split; [|done]. intros _. split; [|done].
      eapply Forall_impl; [done|]. intros row Hrow.
      apply Forall_cons in Hrow as [? [? [? [? _]%Forall_cons]%Forall_cons]%Forall_cons].
      done.
    + split; [done|]. by intros [_ ?].
Qed.

(** X16.  A missing field is reported for the first line that lacks a
    required field, under the number of that line in the file (the header is
    line 1), and for the first such field of that line; it is reported
    whether or not external ids are repeated. *)
Theorem validate_departments_csv_reports_first_gap raws n f :
  validate_departments_csv raws = Some (MissingField n f) →
  ∃ k row,
    n = (k + 2)%nat
    ∧ raws !! k = Some row
    ∧ has_value row f = false
    ∧ (f = "external_id" ∨ f = "name" ∧ has_value row "external_id" = true)
    ∧ Forall (λ row', has_value row' "external_id" = true
                      ∧ has_value row' "name" = true) (take k raws).
Proof.
  unfold validate_departments_csv.
  destruct (check_required _ 2 raws) as [e|] eqn:Hreq.
  - intros [= ->].
    apply check_required_Some in Hreq as (k & row & f' & [= -> ->] & Hk & Hmiss & Hbefore).
    exists k, row. split_and!; [lia|done|..].
    + by apply missing_field_Some in Hmiss as (? & ? & _ & ? & _).
    + simpl in Hmiss. destruct (has_value row "external_id"); [|left; congruence].
      destruct (has_value row "name"); [done|]. right. split; congruence.
    + eapply Forall_impl; [done|]. intros row' Hrow.
      apply Forall_cons in Hrow as [? [? _]%Forall_cons]. done.
  - cbv zeta. by case_decide.
Qed.

(** X17.  Repeated external ids are reported only when every row has its
    required fields, and the values reported are exactly the external ids
    that occur in two rows or more. *)
Theorem validate_departments_csv_reports_repeated_ids raws column values :
  validate_departments_csv raws = Some (Duplicates column values) →
  column = "external_id"
  ∧ values ≠ ∅
  ∧ Forall (λ row, has_value row "external_id" = true ∧ has_value row "name" = true) raws
  ∧ ∀ x, x ∈ values
      ↔ ∃ i j : nat, (i < j)%nat
          ∧ ids (dept_row_of <$> raws) !! i = Some x
          ∧ ids (dept_row_of <$> raws) !! j = Some x.
Proof.
  unfold validate_departments_csv. rewrite ids_dept_row_of.
  destruct (check_required _ 2 raws) as [e|] eqn:Hreq.
  - intros [= ->]. by apply check_required_Some in Hreq as (? & ? & ? & ? & _).
  - apply check_required_None in Hreq. cbv zeta. case_decide as Hdup; [done|].
    intros [= <- <-]. split_and!; [done..| |].
    + eapply Forall_impl; [done|]. intros row Hrow.
      apply Forall_cons in Hrow as [? [? _]%Forall_cons]. done.
    + intros x. apply elem_of_duplicated.
Qed.

(** X18.  Department rows that have passed the validation have non-empty
    external ids and names, and for them the cycle error of
    [build_hierarchy_and_create] means a cycle of parent links and nothing
    else. *)
Theorem validated_rows_fail_only_on_cycles fuel raws w :
  validate_departments_csv raws = None →
  Forall (λ r, external_id r ≠ "" ∧ name r ≠ "") (dept_row_of <$> raws)
  ∧ ((build_hierarchy_and_create fuel (dept_row_of <$> raws) w).1
     = Raise (ValueError cycle_message)
     ↔ has_cycle (dept_row_of <$> raws)).
Proof.
  intros [Hall Hids]%departments_accepted_iff. split.
  - apply Forall_fmap. eapply Forall_impl; [done|].
    intros row [? ?]. split; by apply has_value_row_item.
  - rewrite cycle_error_iff. naive_solver.
Qed.

(** *** The validation at concrete rows *)

Lemma validate_departments_csv_accepts_witness :
  validate_departments_csv
    [csv_row [("external_id", "A"); ("name", "a"); ("parent_external_id", "")];
     csv_row [("external_id", "B"); ("name", "b"); ("parent_external_id", "A")]]
  = None.
Proof.
  apply (proj2 (validate_departments_csv_accepts _)).
  split; by_computation.
Defined.

Lemma validate_users_csv_accepts_witness :
  validate_users_csv
    [csv_row [("nickname", "ivan"); ("first", "Ivan"); ("last", "Petrov");
              ("dept_external_id", "A")];
     csv_row [("nickname", "olga"); ("first", "Olga"); ("last", "Petrova");
              ("dept_external_id", "A"); ("language", "en")]]
  = None.
Proof.
  apply (proj2 (validate_users_csv_accepts _)).
  split; by_computation.
Defined.

Lemma validate_departments_csv_reports_first_gap_witness :
  ∃ k row,
    3%nat = (k + 2)%nat
    ∧ [csv_row [("external_id", "A"); ("name", "a")];
       csv_row [("external_id", "A"); ("name", "")];
       csv_row [("name", "c")]] !! k = Some row
    ∧ has_value row "name" = false
    ∧ ("name" = "external_id" ∨ "name" = "name" ∧ has_value row "external_id" = true)
    ∧ Forall (λ row', has_value row' "external_id" = true
                      ∧ has_value row' "name" = true)
         (take k [csv_row [("external_id", "A"); ("name", "a")];
                  csv_row [("external_id", "A"); ("name", "")];
                  csv_row [("name", "c")]]).
Proof.
  exact (validate_departments_csv_reports_first_gap
           [csv_row [("external_id", "A"); ("name", "a")];
            csv_row [("external_id", "A"); ("name", "")];
            csv_row [("name", "c")]] 3 "name" ltac:(vm_compute; reflexivity)).
Defined.

Lemma validate_departments_csv_reports_repeated_ids_witness :
  ({["A"]} : gset string) ≠ ∅
  ∧ ∀ x, x ∈ ({["A"]} : gset string)
      ↔ ∃ i j : nat, (i < j)%nat
          ∧ ids (dept_row_of <$>
                   [csv_row [("external_id", "A"); ("name", "a")];
                    csv_row [("external_id", "B"); ("name", "b")];
                    csv_row [("external_id", "A"); ("name", "c")]]) !! i = Some x
          ∧ ids (dept_row_of <$>
                   [csv_row [("external_id", "A"); ("name", "a")];
                    csv_row [("external_id", "B"); ("name", "b")];
                    csv_row [("external_id", "A"); ("name", "c")]]) !! j = Some x.
Proof.
  assert (Hrun : validate_departments_csv
                   [csv_row [("external_id", "A"); ("name", "a")];
                    csv_row [("external_id", "B"); ("name", "b")];
                    csv_row [("external_id", "A"); ("name", "c")]]
                 = Some (Duplicates "external_id" {["A"]})) by (vm_compute; reflexivity).
  destruct (validate_departments_csv_reports_repeated_ids _ _ _ Hrun)
    as (_ & Hne & _ & Hvalues).
  split; [exact Hne | exact Hvalues].
Defined.

Lemma validated_rows_fail_only_on_cycles_witness :
  validate_departments_csv
    [csv_row [("external_id", "X"); ("name", "x"); ("parent_external_id", "Y")];
     csv_row [("external_id", "Y"); ("name", "y"); ("parent_external_id", "X")]]
  = None
  ∧ Forall (λ r, external_id r ≠ "" ∧ name r ≠ "")
      (dept_row_of <$>
         [csv_row [("external_id", "X"); ("name", "x"); ("parent_external_id", "Y")];
          csv_row [("external_id", "Y"); ("name", "y"); ("parent_external_id", "X")]])
  ∧ ((build_hierarchy_and_create 5
        (dept_row_of <$>
           [csv_row [("external_id", "X"); ("name", "x"); ("parent_external_id", "Y")];
            csv_row [("external_id", "Y"); ("name", "y"); ("parent_external_id", "X")]])
        (world [] [])).1
     = Raise (ValueError cycle_message)
     ↔ has_cycle
         (dept_row_of <$>
            [csv_row [("external_id", "X"); ("name", "x"); ("parent_external_id", "Y")];
             csv_row [("external_id", "Y"); ("name", "y"); ("parent_external_id", "X")]])).
Proof.
  assert (Hok : validate_departments_csv
    [csv_row [("external_id", "X"); ("name", "x"); ("parent_external_id", "Y")];
     csv_row [("external_id", "Y"); ("name", "y"); ("parent_external_id", "X")]]
    = None) by (vm_compute; reflexivity).
  split; [exact Hok|].
  exact (validated_rows_fail_only_on_cycles 5 _ (world [] []) Hok).
Defined.

(** ** Children under their parents *)

Section parents.
Variable fuel : nat.
Variable rows : list DeptRow.
Hypothesis ids_NoDup : NoDup (ids rows).

Lemma create_departments_parents order : ∀ m w m' w',
  NoDup order → (∀ v, v ∈ order → v ∈ ids rows) →
  (∀ v, v ∈ order → m !! v = None) →
  (∀ v p, v ∈ order → par rows v = Some p → is_Some (m !! p) ∨ before p v order) →
  create_departments fuel (by_ext rows) order m w = (Return m', w') →
  m ⊆ m' ∧ ∃ new, calls w' = calls w ++ new ∧ parents_sent rows m' new.
Proof.
  induction order as [|v order IH]; intros m w m' w' Hnd Hin Hfresh Hpar;
    cbn [create_departments].
  { intros [= <- <-]. split; [done|]. exists []. split; [by rewrite app_nil_r|].
    by intros payload r p ?%elem_of_nil. }
  assert (Hv0 : v ∈ ids rows) by set_solver.
  apply list_elem_of_fmap in Hv0 as (r & -> & Hr).
  rewrite by_ext_lookup_NoDup by done.
  rewrite (resolve_parent_ready rows m r order) by (try done; intros; apply Hpar; set_solver).
  rewrite bind_ret. unfold bind at 1.
  destruct (ensure_department_issues fuel (name r) (external_id r)
              (pe r ≫= λ p, m !! p) (or_None (label r)) (or_None (description r)) w)
    as (new1 & Hcalls1 & Hnew1).
  destruct (ensure_department _ _ _ _ _ _ w) as [[i| |] w1]; [|done..].
  simpl in Hcalls1. apply NoDup_cons in Hnd as [Hv Hnd].
  intros (Hsub & new2 & Hcalls2 & Hnew2)%IH; [|done|set_solver|..].
  - assert (Hmm' : m ⊆ m').
    { etrans; [|exact Hsub]. apply insert_subseteq, Hfresh. set_solver. }
    split; [done|]. exists (new1 ++ new2).
    split; [by rewrite Hcalls2, Hcalls1, <- app_assoc|].
    intros payload r' p [Hrq|Hrq]%elem_of_app Hr' Hext Hpe Hp; [|by eapply Hnew2].
    rewrite Forall_forall in Hnew1. specialize (Hnew1 _ Hrq). simpl in Hnew1.
    subst payload. simpl in Hext.
    assert (r = r') as <-.
    { pose proof (by_ext_lookup_NoDup rows r ids_NoDup Hr) as H1.
      pose proof (by_ext_lookup_NoDup rows r' ids_NoDup Hr') as H2.
      rewrite Hext in H1. congruence. }
    simpl. rewrite Hpe. simpl.
    destruct (Hpar (external_id r) p) as [[j Hj] | Hb]; [set_solver| | |].
    + rewrite par_row by done. by apply in_set_parent_spec.
    + exists j. rewrite Hj. split; [|done]. by eapply lookup_weaken.
    + by apply before_head in Hb; [|constructor].
  - intros v' Hv'. rewrite lookup_insert_ne by set_solver. apply Hfresh. set_solver.
  - intros v' p Hv' Hp. destruct (Hpar v' p) as [Hsome | Hb]; [set_solver|done|..].
    + left. rewrite lookup_insert_is_Some. destruct (decide (external_id r = p)); auto.
    + apply before_cons_inv in Hb as [-> | Hb]; [|by right].
      left. rewrite lookup_insert_eq. eauto.
Qed.
End parents.

(** X19.  When the department step returns a mapping, every create request
    it has sent for a row whose parent is a row of the input carries the id
    the mapping holds for that parent (left out when that id is the empty
    string). *)
Theorem child_create_carries_parent_id fuel rows w m w' :
  build_hierarchy_and_create fuel rows w = (Return m, w') →
  ∃ new,
    calls w' = calls w ++ new
    ∧ ∀ payload r p,
        POST Departments (DeptData payload) ∈ new → r ∈ rows →
        DeptPayload.externalId payload = external_id r →
        pe r = Some p → p ∈ ids rows →
        ∃ i, m !! p = Some i ∧ DeptPayload.parentId payload = or_None (Some i).
Proof.
  unfold build_hierarchy_and_create.
  destruct (kahn_order rows) as [order|] eqn:Hk; [|done].
  case_decide as Hlen; [done|].
  pose proof (kahn_order_full _ _ Hk Hlen) as Hperm.
  destruct (kahn_order_NoDup _ _ Hk) as [Hnd Hin].
  assert (Hids : NoDup (ids rows)) by by rewrite <- Hperm.
  destruct (kahn_order_forest _ Hids _ Hk) as (_ & _ & Hbefore).
  intros (_ & new & Hcalls & Hnew)%(create_departments_parents fuel rows Hids); try done.
  - by exists new.
  - intros v p Hv Hp. right. by apply Hbefore.
Qed.

Lemma child_create_carries_parent_id_witness :
  ∃ new,
    [POST Departments (DeptData (create_payload "a" "A" None None None));
     POST Departments (DeptData (create_payload "b" "B" (Some "1") None None))]
    = [] ++ new
    ∧ ∀ payload r p,
        POST Departments (DeptData payload) ∈ new →
        r ∈ [mkrow "B" "b" (Some "A"); mkrow "A" "a" None] →
        DeptPayload.externalId payload = external_id r →
        pe r = Some p → p ∈ ids [mkrow "B" "b" (Some "A"); mkrow "A" "a" None] →
        ∃ i, ({["A" := "1"; "B" := "2"]} : gmap string string) !! p = Some i
             ∧ DeptPayload.parentId payload = or_None (Some i).
Proof.
  assert (Hrun : build_hierarchy_and_create 5
                   [mkrow "B" "b" (Some "A"); mkrow "A" "a" None]
                   (world [] [reply 201 (Some (json_department "1"));
                              reply 201 (Some (json_department "2"))])
                 = (Return {["A" := "1"; "B" := "2"]},
                    {| DEPT_CACHE := [{| Dept.id := Some "1"; Dept.externalId := Some "A";
                                         Dept.name := None |};
                                      {| Dept.id := Some "2"; Dept.externalId := Some "B";
                                         Dept.name := None |}];
                       service := [];
                       calls := [POST Departments
                                   (DeptData (create_payload "a" "A" None None None));
                                 POST Departments
                                   (DeptData (create_payload "b" "B" (Some "1") None None))];
                       sleeps := [] |})) by (vm_compute; reflexivity).
  exact (child_create_carries_parent_id 5 _ _ _ _ Hrun).
Defined.
